(** * Cross-device sync server: configuration, front door and start-up

    A shallow embedding of [packages/cross-device-sync-server/src/index.ts].
    The file follows the source top-down: JavaScript strings and numbers as
    far as [readEnv] needs them, [readEnv], [setCorsHeaders], the request
    listener of [start], and the start-up sequence with its console output.
    The WebDAV engine of the [webdav-server] package is not part of the
    repository's sources; it is a parameter of the request listener, and a
    model of it written from the specification is kept in separate modules. *)

From Stdlib Require Import ZArith String Ascii List Bool Lia DecimalString DecimalPos.
From Stdlib Require Import Floats.SpecFloat.
From stdpp Require Import base option list gmap strings sorting.

Local Open Scope Z_scope.

(** ** JavaScript strings

    A string is a sequence of code units; the model covers the code units
    U+0000 to U+00FF, one [ascii] each. *)

Module JsString.

(** WhiteSpace and LineTerminator code points below U+0100, the ones
    [String.prototype.trim] and [StringToNumber] strip. *)
Definition isWhiteSpace (c : ascii) : bool :=
  match c with
  | "009" | "010" | "011" | "012" | "013" | " " | "160" => true
  | _ => false
  end%char.

Fixpoint trimStart (s : string) : string :=
  match s with
  | String c r => if isWhiteSpace c then trimStart r else s
  | EmptyString => EmptyString
  end.

Definition trimEnd (s : string) : string :=
  String.rev (trimStart (String.rev s)).

Definition trim (s : string) : string := trimEnd (trimStart s).

(** [s.split(sep)] for a one-character separator. *)
Fixpoint splitGo (sep : ascii) (cur : string) (s : string) : list string :=
  match s with
  | EmptyString => [String.rev cur]
  | String c r =>
      if Ascii.eqb c sep then String.rev cur :: splitGo sep EmptyString r
      else splitGo sep (String c cur) r
  end.

Definition split (sep : ascii) (s : string) : list string :=
  splitGo sep EmptyString s.

(** [parts.join(sep)]. *)
Fixpoint join (sep : string) (parts : list string) : string :=
  match parts with
  | [] => EmptyString
  | [p] => p
  | p :: rest => p +:+ sep +:+ join sep rest
  end.

(** ASCII part of [toLowerCase]; header names are ASCII tokens. *)
Definition lowerChar (c : ascii) : ascii :=
  let n := N_of_ascii c in
  if ((65 <=? n) && (n <=? 90))%N then ascii_of_N (n + 32) else c.

Fixpoint toLowerCase (s : string) : string :=
  match s with
  | EmptyString => EmptyString
  | String c r => String (lowerChar c) (toLowerCase r)
  end.

Definition dquote : string := String "034"%char EmptyString.

(** The truthiness of a string: only the empty string is falsy. *)
Definition truthy (s : string) : bool :=
  match s with EmptyString => false | _ => true end.

End JsString.

(** ** JavaScript numbers

    A number is an IEEE 754 binary64 value, here a [spec_float] of the
    standard library with precision 53 and maximal exponent 1024. *)

Module JsNumber.

Definition number := spec_float.

Definition prec : Z := 53.
Definition emax : Z := 1024.

Definition ofZ (z : Z) : number := binary_normalize prec emax z 0 false.

(** The binary64 value nearest to [n * 10^k] (ties to even), signed. *)
Definition roundDecimal (neg : bool) (n k : Z) : number :=
  match n with
  | Zpos p =>
      if 0 <=? k then binary_round prec emax neg (Pos.mul p (Z.to_pos (10 ^ k))) 0
      else SFdiv prec emax (S754_finite neg p 0)
                 (S754_finite false (Z.to_pos (10 ^ (- k))) 0)
  | _ => S754_zero neg
  end.

Definition decDigit (c : ascii) : option Z :=
  let n := Z.of_N (N_of_ascii c) in
  if (48 <=? n) && (n <=? 57) then Some (n - 48) else None.

Definition hexDigit (c : ascii) : option Z :=
  let n := Z.of_N (N_of_ascii c) in
  if (48 <=? n) && (n <=? 57) then Some (n - 48)
  else if (97 <=? n) && (n <=? 102) then Some (n - 87)
  else if (65 <=? n) && (n <=? 70) then Some (n - 55)
  else None.

Definition octDigit (c : ascii) : option Z :=
  let n := Z.of_N (N_of_ascii c) in
  if (48 <=? n) && (n <=? 55) then Some (n - 48) else None.

Definition binDigit (c : ascii) : option Z :=
  let n := Z.of_N (N_of_ascii c) in
  if (48 <=? n) && (n <=? 49) then Some (n - 48) else None.

(** The longest prefix of digits, and what follows it. *)
Fixpoint spanDigits (digit : ascii -> option Z) (s : string) : list Z * string :=
  match s with
  | String c r =>
      match digit c with
      | Some d => let '(ds, rest) := spanDigits digit r in (d :: ds, rest)
      | None => ([], s)
      end
  | EmptyString => ([], EmptyString)
  end.

Definition digitsValue (radix : Z) (ds : list Z) : Z :=
  fold_left (fun acc d => acc * radix + d) ds 0.

(** NonDecimalIntegerLiteral: all of [s] are digits of the radix, at least one. *)
Definition parseRadix (digit : ascii -> option Z) (radix : Z) (s : string) : number :=
  match spanDigits digit s with
  | (d :: ds, EmptyString) => ofZ (digitsValue radix (d :: ds))
  | _ => S754_nan
  end.

(** ExponentPart_opt at the end of the literal: the decimal exponent. *)
Definition parseExponent (s : string) : option Z :=
  match s with
  | EmptyString => Some 0
  | String c r =>
      if Ascii.eqb c "e" || Ascii.eqb c "E" then
        let '(neg, r') :=
          match r with
          | String "+" t => (false, t)
          | String "-" t => (true, t)
          | _ => (false, r)
          end in
        match spanDigits decDigit r' with
        | (d :: ds, EmptyString) =>
            let e := digitsValue 10 (d :: ds) in Some (if neg then - e else e)
        | _ => None
        end
      else None
  end.

(** StrUnsignedDecimalLiteral. *)
Definition parseUnsignedDecimal (neg : bool) (s : string) : number :=
  if String.eqb s "Infinity" then S754_infinity neg
  else
    let '(ip, r1) := spanDigits decDigit s in
    let '(fp, r2) :=
      match r1 with
      | String "." r => spanDigits decDigit r
      | _ => ([], r1)
      end in
    match ip ++ fp with
    | [] => S754_nan
    | ds =>
        match parseExponent r2 with
        | Some e => roundDecimal neg (digitsValue 10 ds) (e - Z.of_nat (length fp))
        | None => S754_nan
        end
    end.

(** [Number(s)] for a string [s] (StringToNumber). *)
Definition ofString (s : string) : number :=
  match JsString.trim s with
  | EmptyString => S754_zero false
  | String "0" (String "x" r) | String "0" (String "X" r) => parseRadix hexDigit 16 r
  | String "0" (String "o" r) | String "0" (String "O" r) => parseRadix octDigit 8 r
  | String "0" (String "b" r) | String "0" (String "B" r) => parseRadix binDigit 2 r
  | String "+" r => parseUnsignedDecimal false r
  | String "-" r => parseUnsignedDecimal true r
  | t => parseUnsignedDecimal false t
  end.

(** [Number.isFinite]. *)
Definition isFinite (x : number) : bool :=
  match x with
  | S754_zero _ | S754_finite _ _ _ => true
  | _ => false
  end.

(** [x <= y] and [x > y]; both are false when an operand is NaN. *)
Definition le (x y : number) : bool := SFleb x y.
Definition gt (x y : number) : bool := SFltb y x.

(** The integer a finite number denotes, if it denotes one. *)
Definition toInteger (x : number) : option Z :=
  match x with
  | S754_zero _ => Some 0
  | S754_finite s m e =>
      let v := if s then Zneg m else Zpos m in
      if 0 <=? e then Some (v * 2 ^ e)
      else if (Zpos m) mod 2 ^ (- e) =? 0 then Some (v / 2 ^ (- e))
      else None
  | _ => None
  end.

(** [Number.isInteger]. *)
Definition isInteger (x : number) : bool :=
  match toInteger x with Some _ => true | None => false end.

End JsNumber.

(** ** POSIX paths ([node:path])

    [path.resolve] works on the segments between slashes: empty segments and
    [.] are dropped and [..] removes the segment before it. *)

Module Path.

Definition isAbsolute (p : string) : bool :=
  match p with
  | String "/" _ => true
  | _ => false
  end.

(** [normalizeString] of node:path on the list of segments; [stack] holds
    the segments kept so far, last one first. *)
Fixpoint normalizeSegments (allowAboveRoot : bool) (stack segs : list string)
  : list string :=
  match segs with
  | [] => rev stack
  | s :: rest =>
      if decide (s = EmptyString \/ s = ".") then
        normalizeSegments allowAboveRoot stack rest
      else if decide (s = "..") then
        match stack with
        | top :: below =>
            if decide (top = "..") then
              normalizeSegments allowAboveRoot
                (if allowAboveRoot then s :: stack else stack) rest
            else normalizeSegments allowAboveRoot below rest
        | [] =>
            normalizeSegments allowAboveRoot
              (if allowAboveRoot then [s] else []) rest
        end
      else normalizeSegments allowAboveRoot (s :: stack) rest
  end.

Definition normalizeString (p : string) (allowAboveRoot : bool) : string :=
  JsString.join "/" (normalizeSegments allowAboveRoot [] (JsString.split "/" p)).

(** The loop of [path.resolve]: arguments from right to left, then the
    working directory, until an absolute path has been built. *)
Fixpoint resolveLoop (cwd : string) (rargs : list string)
    (resolvedPath : string) : string * bool :=
  match rargs with
  | [] =>
      if JsString.truthy cwd then (cwd +:+ "/" +:+ resolvedPath, isAbsolute cwd)
      else (resolvedPath, false)
  | p :: rest =>
      if JsString.truthy p then
        if isAbsolute p then (p +:+ "/" +:+ resolvedPath, true)
        else resolveLoop cwd rest (p +:+ "/" +:+ resolvedPath)
      else resolveLoop cwd rest resolvedPath
  end.

(** [path.resolve(...args)] in a process whose working directory is [cwd]. *)
Definition resolve (cwd : string) (args : list string) : string :=
  let '(resolvedPath, resolvedAbsolute) := resolveLoop cwd (rev args) EmptyString in
  let normalized := normalizeString resolvedPath (negb resolvedAbsolute) in
  if resolvedAbsolute then "/" +:+ normalized
  else if JsString.truthy normalized then normalized else ".".

End Path.

(** ** [readEnv] *)

Record Env := {
  HOST : string;
  PORT : JsNumber.number;
  DATA_DIR : string;
  USERNAME : string;
  PASSWORD : string;
  REALM : string;
}.

(** What [readEnv] throws. *)
Inductive ConfigError :=
| InvalidPort (portRaw : string)
| UsernameEmpty
| PasswordEmpty.


(** [process.env.NAME?.trim()]: [None] is [undefined]. *)
Definition envTrim (penv : gmap string string) (name : string) : option string :=
  JsString.trim <$> penv !! name.

(** [v || d] for an optional string [v]: [undefined] and the empty string
    are falsy. *)
Definition orElse (v : option string) (d : string) : string :=
  match v with
  | Some s => if JsString.truthy s then s else d
  | None => d
  end.

(** [readEnv()] in a process with environment [penv] and working directory
    [cwd]. *)
Definition readEnv (penv : gmap string string) (cwd : string)
  : ConfigError + Env :=
  let host := orElse (envTrim penv "HOST") "0.0.0.0" in
  let portRaw := orElse (envTrim penv "PORT") "2345" in
  let port := JsNumber.ofString portRaw in
  let dataDir := orElse (envTrim penv "DATA_DIR") (Path.resolve cwd [cwd; "data"]) in
  let username := orElse (envTrim penv "USERNAME") "admin" in
  let password := orElse (envTrim penv "PASSWORD") "admin" in
  let realm := orElse (envTrim penv "REALM") "Super Productivity Sync" in
  if negb (JsNumber.isFinite port)
     || JsNumber.le port (JsNumber.ofZ 0)
     || JsNumber.gt port (JsNumber.ofZ 65535)
  then inl (InvalidPort portRaw)
  else if negb (JsString.truthy username) then inl UsernameEmpty
  else if negb (JsString.truthy password) then inl PasswordEmpty
  else inr {| HOST := host; PORT := port; DATA_DIR := dataDir;
              USERNAME := username; PASSWORD := password; REALM := realm |}.

(** ** Requests and responses ([node:http]) *)

(** An incoming request. Header names are in lower case, as node delivers
    them; a header sent several times arrives joined into one string. *)
Record IncomingMessage := {
  method : string;
  url : string;
  headers : gmap string string;
  payload : string;
}.

(** A response under construction. [outHeaders] is keyed by the header name
    in lower case, as [setHeader] stores it. *)
Record ServerResponse := {
  statusCode : Z;
  outHeaders : gmap string string;
  body : string;
  finished : bool;
}.

Module Response.

(** The response object handed to the request listener. *)
Definition fresh : ServerResponse :=
  {| statusCode := 200; outHeaders := ∅; body := EmptyString; finished := false |}.

Definition setHeader (name value : string) (res : ServerResponse) : ServerResponse :=
  {| statusCode := statusCode res;
     outHeaders := <[JsString.toLowerCase name := value]> (outHeaders res);
     body := body res;
     finished := finished res |}.

Definition getHeader (name : string) (res : ServerResponse) : option string :=
  outHeaders res !! JsString.toLowerCase name.

Definition setStatus (code : Z) (res : ServerResponse) : ServerResponse :=
  {| statusCode := code; outHeaders := outHeaders res;
     body := body res; finished := finished res |}.

(** [res.end(data)]; [res.end()] is [finish EmptyString]. *)
Definition finish (data : string) (res : ServerResponse) : ServerResponse :=
  {| statusCode := statusCode res; outHeaders := outHeaders res;
     body := body res +:+ data; finished := true |}.

End Response.

(** ** [setCorsHeaders] *)

Definition allowMethods : list string :=
  ["GET"; "HEAD"; "POST"; "PUT"; "DELETE"; "OPTIONS"; "PROPFIND"; "PROPPATCH";
   "MKCOL"; "COPY"; "MOVE"; "LOCK"; "UNLOCK"].

Definition allowHeaders : list string :=
  ["authorization"; "content-type"; "depth"; "destination"; "overwrite"; "if";
   "if-match"; "if-none-match"; "range"; "accept"; "user-agent"].

Definition exposeHeaders : list string :=
  ["etag"; "content-length"; "content-type"; "date"; "last-modified"].

(** [typeof origin === 'string' && origin.length ? origin : '*'] *)
Definition allowOrigin (req : IncomingMessage) : string :=
  match headers req !! "origin" with
  | Some origin => if JsString.truthy origin then origin else "*"
  | None => "*"
  end.

Definition setCorsHeaders (req : IncomingMessage) (res : ServerResponse)
  : ServerResponse :=
  let res := Response.setHeader "Access-Control-Allow-Origin" (allowOrigin req) res in
  let res := Response.setHeader "Vary" "Origin" res in
  let res := Response.setHeader "Access-Control-Allow-Credentials" "true" res in
  let res := Response.setHeader "X-Content-Type-Options" "nosniff" res in
  let res := Response.setHeader "Referrer-Policy" "no-referrer" res in
  let res := Response.setHeader "Access-Control-Allow-Methods"
               (JsString.join ", " allowMethods) res in
  let res := Response.setHeader "Access-Control-Allow-Headers"
               (JsString.join ", " allowHeaders) res in
  Response.setHeader "Access-Control-Expose-Headers"
    (JsString.join ", " exposeHeaders) res.

(** ** The request listener of [start]

    [wServer.executeRequest] belongs to the webdav-server package. The
    listener takes it as a parameter: a function of the request, the response
    object and the state [S] the engine keeps (its file system). *)

Definition Engine (S : Type) : Type :=
  IncomingMessage -> ServerResponse -> S -> ServerResponse * S.

Definition requestListener {S : Type} (executeRequest : Engine S)
    (req : IncomingMessage) (res : ServerResponse) (st : S) : ServerResponse * S :=
  let res := setCorsHeaders req res in
  if decide (method req = "OPTIONS") then
    (Response.finish EmptyString (Response.setStatus 204 res), st)
  else if decide (url req = "/health") then
    let res := Response.setStatus 200 res in
    let res := Response.setHeader "Content-Type" "text/plain; charset=utf-8" res in
    (Response.finish "ok" res, st)
  else executeRequest req res st.

(** The server answering one request with a new response object. *)
Definition serve {S : Type} (executeRequest : Engine S) (req : IncomingMessage)
    (st : S) : ServerResponse * S :=
  requestListener executeRequest req Response.fresh st.

(** ** [start]: the start-up sequence *)

(** What the process sees of its host: environment, working directory, the
    file system calls of [start] and the outcome of binding the socket. *)
Record Host := {
  penv : gmap string string;
  cwd : string;
  existsSync : string -> bool;
  (** [mkdirSync(dir, {recursive: true})]: [Some message] when it throws. *)
  mkdirSync : string -> option string;
  (** Binding [host:port]: [Some message] when the server emits [error]. *)
  bind : Z -> string -> option string;
}.

Inductive Console :=
| console_log (line : string)
| console_warn (line : string).

Inductive StartError :=
| ConfigFailed (e : ConfigError)
| DataDirFailed (message : string)
| ListenFailed (message : string).

(** [httpServer.listen(port, host)]: node validates the port (an integer in
    0..65535) before it binds. The result is the port bound. *)
Definition listen (h : Host) (port : JsNumber.number) (host : string)
  : StartError + Z :=
  match JsNumber.toInteger port with
  | Some p =>
      if (0 <=? p) && (p <=? 65535) then
        match bind h p host with
        | Some message => inl (ListenFailed message)
        | None => inr p
        end
      else inl (ListenFailed "ERR_SOCKET_BAD_PORT")
  | None => inl (ListenFailed "ERR_SOCKET_BAD_PORT")
  end.

Definition weakPasswordWarning : string :=
  "[cross-device-sync-server] WARNING: You are using a default/weak PASSWORD. Set a strong PASSWORD.".

(** The check that guards [console.warn] in [start]. *)
Definition usesWeakPassword (env : Env) : bool :=
  bool_decide (PASSWORD env = "admin") || bool_decide (PASSWORD env = "change-me").

(** The start-up summary; [port] is [env.PORT] as the integer [listen]
    accepted, printed in decimal. *)
Definition startedLine (env : Env) (port : Z) : string :=
  JsString.join " "
    ["[cross-device-sync-server] started";
     "host=" +:+ HOST env;
     "port=" +:+ DecimalString.NilZero.string_of_int (Z.to_int port);
     "dataDir=" +:+ DATA_DIR env;
     "username=" +:+ USERNAME env].

(** [start()]: the error it rejects with, or the lines it prints. *)
Definition start (h : Host) : StartError + list Console :=
  match readEnv (penv h) (cwd h) with
  | inl e => inl (ConfigFailed e)
  | inr env =>
      let created :=
        if existsSync h (DATA_DIR env) then None else mkdirSync h (DATA_DIR env) in
      match created with
      | Some message =>
          inl (DataDirFailed
                 ("Unable to create DATA_DIR " +:+ JsString.dquote +:+ DATA_DIR env
                  +:+ JsString.dquote +:+ ". Set DATA_DIR to a writable folder. "
                  +:+ "Original error: " +:+ message))
      | None =>
          match listen h (PORT env) (HOST env) with
          | inl e => inl e
          | inr port =>
              inr ((if usesWeakPassword env
                    then [console_warn weakPasswordWarning] else [])
                   ++ [console_log (startedLine env port)])
          end
      end
  end.

(** ** The Storage Backend *)

(** Modelled from the spec: the file system behind [webdav.PhysicalFileSystem],
    which [start] mounts at [/], belongs to the webdav-server package; its
    sources are not among the repository's. The module follows section 4.2 of
    the specification: the operations [exists], [stat], [readDocument],
    [writeDocument], [createCollection], [listChildren], [delete], [move] and
    [copy] over a hierarchical store, every path normalized and checked
    against the storage root before the store is touched. The store keeps a
    journal of the locations it was asked to read or write. *)
Module Storage.

Inductive Resource :=
| Collection
| Document (content : string) (lastModified : nat).

Inductive Access :=
| Read (loc : list string)
| Write (loc : list string).

Definition place (a : Access) : list string :=
  match a with Read loc | Write loc => loc end.

(** The underlying store: resources by location (the directory names from
    the top of the store), a clock for modification times, and the journal,
    latest access first. *)
Record Store := {
  tree : gmap (list string) Resource;
  clock : nat;
  journal : list Access;
}.

Inductive StorageError :=
| PathTraversalDenied
| ParentMissing
| NotFound
| NotAllowed.

Record Metadata := {
  isCollection : bool;
  contentLength : nat;
  modified : nat;
  entityTag : N;
}.

(** The entity tag of a document: a digest of its content. *)
Definition digest (content : string) : N :=
  fold_left (fun h c => ((h * 33 + N_of_ascii c) mod 2 ^ 32)%N)
    (list_ascii_of_string content) 5381%N.

Definition metadata (r : Resource) : Metadata :=
  match r with
  | Collection =>
      {| isCollection := true; contentLength := 0; modified := 0; entityTag := 0 |}
  | Document content t =>
      {| isCollection := false; contentLength := String.length content;
         modified := t; entityTag := digest content |}
  end.

(** Computations on the store that may fail. *)
Definition M (A : Type) : Type := Store -> (StorageError + A) * Store.

#[global] Instance M_ret : MRet M := fun _ a s => (inr a, s).
#[global] Instance M_bind : MBind M := fun _ _ k m s =>
  match m s with
  | (inl e, s') => (inl e, s')
  | (inr a, s') => k a s'
  end.

Definition fail {A : Type} (e : StorageError) : M A := fun s => (inl e, s).

Definition logged (new : list Access) (s : Store) : Store :=
  {| tree := tree s; clock := clock s; journal := new ++ journal s |}.

Definition withTree (t : gmap (list string) Resource) (s : Store) : Store :=
  {| tree := t; clock := clock s; journal := journal s |}.

(** The accesses to the store. *)
Definition readAt (loc : list string) : M (option Resource) :=
  fun s => (inr (tree s !! loc), logged [Read loc] s).

Definition writeAt (loc : list string) (r : Resource) : M unit :=
  fun s => (inr (), logged [Write loc] (withTree (<[loc := r]> (tree s)) s)).

Definition tick : M nat :=
  fun s => (inr (clock s),
            {| tree := tree s; clock := S (clock s); journal := journal s |}).

(** The part of the store at and beneath [loc]. *)
Definition beneath (loc : list string) (t : gmap (list string) Resource)
  : list (list string * Resource) :=
  filter (fun kv => loc `prefix_of` kv.1) (map_to_list t).

(** The names of the children of [loc], ordered by name. *)
Definition childNames (loc : list string) (t : gmap (list string) Resource)
  : list string :=
  merge_sort String.le
    (omap (fun kv => match drop (length loc) kv.1 with
                     | [name] => Some name
                     | _ => None
                     end) (beneath loc t)).

Definition readChildren (loc : list string) : M (list string) :=
  fun s => (inr (childNames loc (tree s)), logged [Read loc] s).

(** Remove [loc] and everything beneath it. *)
Definition removeTree (loc : list string) : M unit :=
  fun s =>
    (inr (),
     logged (Write <$> (beneath loc (tree s)).*1)
       (withTree (filter (fun kv => ¬ loc `prefix_of` kv.1) (tree s)) s)).

(** Copy [src] and everything beneath it to [dst]. *)
Definition graft (src dst : list string) : M unit :=
  fun s =>
    let copied :=
      prod_map (fun k => dst ++ drop (length src) k) id <$> beneath src (tree s) in
    (inr (),
     logged ((Write <$> copied.*1) ++ (Read <$> (beneath src (tree s)).*1))
       (withTree (list_to_map copied ∪ tree s) s)).

(** The requests to the backend, over paths of type [P]. *)
Inductive Operation (P : Type) :=
| Exists (p : P)
| Stat (p : P)
| ReadDocument (p : P)
| WriteDocument (p : P) (bytes : string)
| CreateCollection (p : P)
| ListChildren (p : P)
| Delete (p : P)
| Move (src dst : P)
| Copy (src dst : P).

Arguments Exists {P} p.
Arguments Stat {P} p.
Arguments ReadDocument {P} p.
Arguments WriteDocument {P} p bytes.
Arguments CreateCollection {P} p.
Arguments ListChildren {P} p.
Arguments Delete {P} p.
Arguments Move {P} src dst.
Arguments Copy {P} src dst.

Definition targets {P : Type} (op : Operation P) : list P :=
  match op with
  | Exists p | Stat p | ReadDocument p | WriteDocument p _
  | CreateCollection p | ListChildren p | Delete p => [p]
  | Move src dst | Copy src dst => [src; dst]
  end.

Definition opMap {P Q : Type} (f : P -> Q) (op : Operation P) : Operation Q :=
  match op with
  | Exists p => Exists (f p)
  | Stat p => Stat (f p)
  | ReadDocument p => ReadDocument (f p)
  | WriteDocument p bytes => WriteDocument (f p) bytes
  | CreateCollection p => CreateCollection (f p)
  | ListChildren p => ListChildren (f p)
  | Delete p => Delete (f p)
  | Move src dst => Move (f src) (f dst)
  | Copy src dst => Copy (f src) (f dst)
  end.

Inductive Outcome :=
| Truth (b : bool)
| Meta (m : Metadata)
| Bytes (content : string)
| Names (names : list string)
| Done.

Section Backend.

(** The storage root, a location of the store, and whether the
    deployment lets [delete] remove a collection that has children. *)
Variable root : list string.
Variable recursiveDelete : bool.

(** Modelled from the spec: normalization of a request path, which
    webdav-server does in its own code. The path is taken beneath the root,
    empty segments are dropped (slashes collapse), [.] is dropped and [..]
    steps up. *)
Definition locate (path : string) : list string :=
  Path.normalizeSegments false [] (root ++ JsString.split "/" path).

Definition parent (loc : list string) : list string :=
  take (length loc - 1)%nat loc.

(** The collection a new resource at [loc] goes into must exist. *)
Definition requireParent (loc : list string) : M unit :=
  if decide (loc = root) then fail NotAllowed
  else
    r ← readAt (parent loc);
    match r with
    | Some Collection => mret ()
    | _ => fail ParentMissing
    end.

Definition replaceTree (src dst : list string) : M unit :=
  if decide (src `prefix_of` dst \/ dst `prefix_of` src) then fail NotAllowed
  else
    r ← readAt src;
    match r with
    | None => fail NotFound
    | Some _ => _ ← requireParent dst; _ ← removeTree dst; graft src dst
    end.

(** The operations at normalized locations. *)
Definition run (op : Operation (list string)) : M Outcome :=
  match op with
  | Exists loc =>
      r ← readAt loc; mret (Truth (bool_decide (is_Some r)))
  | Stat loc =>
      r ← readAt loc;
      match r with
      | Some x => mret (Meta (metadata x))
      | None => fail NotFound
      end
  | ReadDocument loc =>
      r ← readAt loc;
      match r with
      | Some (Document content _) => mret (Bytes content)
      | Some Collection => fail NotAllowed
      | None => fail NotFound
      end
  | WriteDocument loc bytes =>
      _ ← requireParent loc;
      r ← readAt loc;
      match r with
      | Some Collection => fail NotAllowed
      | _ => t ← tick; _ ← writeAt loc (Document bytes t); mret Done
      end
  | CreateCollection loc =>
      r ← readAt loc;
      match r with
      | Some _ => fail NotAllowed
      | None => _ ← requireParent loc; _ ← writeAt loc Collection; mret Done
      end
  | ListChildren loc =>
      r ← readAt loc;
      match r with
      | Some Collection => names ← readChildren loc; mret (Names names)
      | Some (Document _ _) => fail NotAllowed
      | None => fail NotFound
      end
  | Delete loc =>
      r ← readAt loc;
      match r with
      | None => fail NotFound
      | Some (Document _ _) => _ ← removeTree loc; mret Done
      | Some Collection =>
          names ← readChildren loc;
          if recursiveDelete || bool_decide (names = [])
          then _ ← removeTree loc; mret Done
          else fail NotAllowed
      end
  | Copy src dst => _ ← replaceTree src dst; mret Done
  | Move src dst => _ ← replaceTree src dst; _ ← removeTree src; mret Done
  end.

(** Modelled from the spec: the entry point of the backend, in place of
    webdav-server's file system calls. Every path is normalized, a path that
    leaves the root is refused, and only then is the store touched. *)
Definition perform (op : Operation string) : M Outcome :=
  let located := opMap locate op in
  if decide (Forall (prefix root) (targets located)) then run located
  else fail PathTraversalDenied.

End Backend.

End Storage.

(** ** The Identity and Privilege Model *)

(** Modelled from the spec: [webdav.SimpleUserManager],
    [webdav.SimplePathPrivilegeManager] and [webdav.HTTPBasicAuthentication]
    belong to the webdav-server package. The module follows section 4.3 of
    the specification: one registered principal, HTTP Basic credentials
    compared with it, and one grant of all rights on the whole tree. *)
Module Identity.

Record Principal := {
  username : string;
  secret : string;
  isAdmin : bool;
}.

Inductive AuthError :=
| MissingCredentials
| BadCredentials.

(** The value of a base64 digit. *)
Definition sextet (c : ascii) : option N :=
  let n := N_of_ascii c in
  if ((65 <=? n) && (n <=? 90))%N then Some (n - 65)%N
  else if ((97 <=? n) && (n <=? 122))%N then Some (n - 71)%N
  else if ((48 <=? n) && (n <=? 57))%N then Some (n + 4)%N
  else if (n =? 43)%N then Some 62%N
  else if (n =? 47)%N then Some 63%N
  else None.

(** The digits of a base64 text up to its padding. *)
Fixpoint sextets (s : string) : option (list N) :=
  match s with
  | EmptyString => Some []
  | String c r =>
      if Ascii.eqb c "=" then
        if bool_decide (r = EmptyString \/ r = "=") then Some [] else None
      else
        match sextet c, sextets r with
        | Some d, Some ds => Some (d :: ds)
        | _, _ => None
        end
  end.

Definition octet (n : N) : ascii := ascii_of_N (n mod 256).

Fixpoint octets (ds : list N) : option string :=
  match ds with
  | [] => Some EmptyString
  | [_] => None
  | [a; b] => Some (String (octet (a * 4 + b / 16)) EmptyString)
  | [a; b; c] =>
      Some (String (octet (a * 4 + b / 16))
              (String (octet (b * 16 + c / 4)) EmptyString))
  | a :: b :: c :: d :: rest =>
      match octets rest with
      | Some tail =>
          Some (String (octet (a * 4 + b / 16))
                  (String (octet (b * 16 + c / 4))
                     (String (octet (c * 64 + d)) tail)))
      | None => None
      end
  end%N.

Definition base64Decode (s : string) : option string :=
  match sextets s with
  | Some ds => octets ds
  | None => None
  end.

(** [s] cut at the first [sep]. *)
Fixpoint splitFirst (sep : ascii) (s : string) : option (string * string) :=
  match s with
  | EmptyString => None
  | String c r =>
      if Ascii.eqb c sep then Some (EmptyString, r)
      else
        match splitFirst sep r with
        | Some (before, after) => Some (String c before, after)
        | None => None
        end
  end.

Fixpoint stripPrefix (p s : string) : option string :=
  match p, s with
  | EmptyString, _ => Some s
  | String a p', String b s' => if Ascii.eqb a b then stripPrefix p' s' else None
  | _, _ => None
  end.

(** The user name and secret a request carries in its [Authorization]
    header, when that header holds Basic credentials. *)
Definition basicCredentials (req : IncomingMessage) : option (string * string) :=
  match headers req !! "authorization" with
  | Some value =>
      match stripPrefix "Basic " value with
      | Some encoded =>
          match base64Decode encoded with
          | Some userPass => splitFirst ":" userPass
          | None => None
          end
      | None => None
      end
  | None => None
  end.

(** Modelled from the spec: [authenticate(credentials)], in place of
    webdav-server's user manager. The credentials are compared with the one
    configured principal. *)
Definition authenticate (configured : Principal)
    (credentials : option (string * string)) : AuthError + Principal :=
  match credentials with
  | None => inl MissingCredentials
  | Some (user, pass) =>
      if bool_decide (user = username configured)
         && bool_decide (pass = secret configured)
      then inr configured
      else inl BadCredentials
  end.

(** Modelled from the spec: [authorize(principal, path, action)], in place
    of webdav-server's privilege manager. There is a single grant: all rights
    on [/] and everything beneath it, for the configured principal. *)
Definition authorize (configured who : Principal) (path action : string) : bool :=
  bool_decide (username who = username configured).

End Identity.

(** ** The Protocol Engine *)

(** Modelled from the spec: [webdav.WebDAVServer.executeRequest] belongs to
    the webdav-server package. The module follows sections 4.3 and 6 and the
    design notes of the specification: the identity check comes first and
    answers 401 with a Basic challenge for the realm; an authenticated
    request goes to a dispatch table keyed by the method name, whose entries
    work on the Storage Backend. *)
Module ProtocolEngine.

Import Storage.

Record Settings := {
  principal : Identity.Principal;
  realm : string;
  root : list string;
  recursiveDelete : bool;
}.

(** The path of a request URL: what comes before the query. *)
Fixpoint requestPath (target : string) : string :=
  match target with
  | EmptyString => EmptyString
  | String c r =>
      if Ascii.eqb c "?" || Ascii.eqb c "#" then EmptyString
      else String c (requestPath r)
  end.

Definition challenge (realm : string) : string :=
  "Basic realm=" +:+ JsString.dquote +:+ realm +:+ JsString.dquote.

Definition errorStatus (e : StorageError) : Z :=
  match e with
  | PathTraversalDenied => 403
  | ParentMissing => 409
  | NotFound => 404
  | NotAllowed => 405
  end.

Definition newline : string := String "010"%char EmptyString.

Section Handlers.

Variable cfg : Settings.

Definition backend (op : Operation string) : M Outcome :=
  perform (root cfg) (recursiveDelete cfg) op.

Definition Handler : Type := string -> IncomingMessage -> M (Z * string).

Definition doGet : Handler := fun path _ =>
  r ← backend (ReadDocument path);
  mret (200, match r with Bytes content => content | _ => EmptyString end).

Definition doHead : Handler := fun path _ =>
  _ ← backend (Stat path); mret (200, EmptyString).

Definition doPut : Handler := fun path req =>
  known ← backend (Exists path);
  _ ← backend (WriteDocument path (payload req));
  mret (match known with Truth true => 204 | _ => 201 end, EmptyString).

Definition doDelete : Handler := fun path _ =>
  _ ← backend (Delete path); mret (204, EmptyString).

Definition doMkcol : Handler := fun path _ =>
  _ ← backend (CreateCollection path); mret (201, EmptyString).

Definition doPropfind : Handler := fun path _ =>
  m ← backend (Stat path);
  match m with
  | Meta {| isCollection := true |} =>
      names ← backend (ListChildren path);
      mret (207, match names with
                 | Names l => JsString.join newline l
                 | _ => EmptyString
                 end)
  | _ => mret (207, EmptyString)
  end.

Definition withDestination (op : string -> string -> Operation string)
  : Handler := fun path req =>
  match headers req !! "destination" with
  | Some dst => _ ← backend (op path (requestPath dst)); mret (201, EmptyString)
  | None => mret (400, EmptyString)
  end.

(** The dispatch table, keyed by the method name. *)
Definition table : gmap string Handler :=
  list_to_map
    [("GET", doGet); ("HEAD", doHead); ("PUT", doPut); ("DELETE", doDelete);
     ("MKCOL", doMkcol); ("PROPFIND", doPropfind);
     ("COPY", withDestination Copy); ("MOVE", withDestination Move)].

Definition reply (code : Z) (content : string) (res : ServerResponse)
  : ServerResponse :=
  Response.finish content (Response.setStatus code res).

(** Modelled from the spec: [executeRequest(req, res)], in place of
    webdav-server's. The identity check is made first; what passes it is
    dispatched on the method name. *)
Definition executeRequest : Engine Store := fun req res st =>
  match Identity.authenticate (principal cfg) (Identity.basicCredentials req) with
  | inl _ =>
      (reply 401 EmptyString
         (Response.setHeader "WWW-Authenticate" (challenge (realm cfg)) res), st)
  | inr who =>
      let path := requestPath (url req) in
      if Identity.authorize (principal cfg) who path (method req) then
        match table !! method req with
        | Some handler =>
            match handler path req st with
            | (inr (code, content), st') => (reply code content res, st')
            | (inl e, st') => (reply (errorStatus e) EmptyString res, st')
            end
        | None => (reply 405 EmptyString res, st)
        end
      else (reply 403 EmptyString res, st)
  end.

End Handlers.

End ProtocolEngine.

(** ** The server [start] assembles

    One user, [env.USERNAME] with [env.PASSWORD], not an administrator, with
    all rights on [/]; Basic authentication for [env.REALM]; the file system
    of [env.DATA_DIR] mounted at [/]. *)

Definition wServer (h : Host) (env : Env) : Engine Storage.Store :=
  ProtocolEngine.executeRequest
    {| ProtocolEngine.principal :=
         {| Identity.username := USERNAME env; Identity.secret := PASSWORD env;
            Identity.isAdmin := false |};
       ProtocolEngine.realm := REALM env;
       ProtocolEngine.root :=
         Path.normalizeSegments false []
           (JsString.split "/" (Path.resolve (cwd h) [DATA_DIR env]));
       ProtocolEngine.recursiveDelete := true |}.

Definition httpServer (h : Host) (env : Env) (req : IncomingMessage)
    (st : Storage.Store) : ServerResponse * Storage.Store :=
  serve (wServer h env) req st.

(** ** The deployment of [index.test.ts]

    The environment the tests start the server with, the requests they send,
    and a store that holds the (empty) data directory. *)

Module Fixture.

Definition testHost : Host :=
  {| penv := {[ "HOST" := "0.0.0.0"; "PORT" := "2346";
                "DATA_DIR" := "/srv/test-data"; "USERNAME" := "testuser";
                "PASSWORD" := "testpass"; "REALM" := "Test Realm" ]};
     cwd := "/srv";
     existsSync := fun _ => true;
     mkdirSync := fun _ => None;
     bind := fun _ _ => None |}.

Definition testEnv : Env :=
  {| HOST := "0.0.0.0"; PORT := JsNumber.ofZ 2346; DATA_DIR := "/srv/test-data";
     USERNAME := "testuser"; PASSWORD := "testpass"; REALM := "Test Realm" |}.

Definition emptyStore : Storage.Store :=
  {| Storage.tree := {[ ["srv"; "test-data"] := Storage.Collection ]};
     Storage.clock := 0;
     Storage.journal := [] |}.

(** [makeRequest({method, path, auth})]; [auth] is the value of the
    Authorization header. *)
Definition makeRequest (verb target : string) (auth : option string)
  : IncomingMessage :=
  {| method := verb; url := target;
     headers := match auth with
                | Some value => {[ "authorization" := value ]}
                | None => ∅
                end;
     payload := EmptyString |}.


(** [Basic] and the base64 text of [testuser:testpass]. *)
Definition validAuth : string := "Basic dGVzdHVzZXI6dGVzdHBhc3M=".

(** [Basic] and the base64 text of [testuser:wrongpassword]. *)
Definition invalidAuth : string := "Basic dGVzdHVzZXI6d3JvbmdwYXNzd29yZA==".

End Fixture.

(** ** Properties the statements below are phrased with *)

(** The headers every response is to carry, for a given request. *)
Definition responseHeaders (req : IncomingMessage) : list (string * string) :=
  [("Access-Control-Allow-Origin",
    match headers req !! "origin" with
    | Some origin => if decide (origin = EmptyString) then "*" else origin
    | None => "*"
    end);
   ("Vary", "Origin");
   ("Access-Control-Allow-Credentials", "true");
   ("X-Content-Type-Options", "nosniff");
   ("Referrer-Policy", "no-referrer")].

Definition responseHeaderNames : list string :=
  ["Access-Control-Allow-Origin"; "Vary"; "Access-Control-Allow-Credentials";
   "X-Content-Type-Options"; "Referrer-Policy"].

(** The lists a preflight response advertises. *)
Definition preflightHeaders : list (string * string) :=
  [("Access-Control-Allow-Methods",
    "GET, HEAD, POST, PUT, DELETE, OPTIONS, PROPFIND, PROPPATCH, MKCOL, COPY, MOVE, LOCK, UNLOCK");
   ("Access-Control-Allow-Headers",
    "authorization, content-type, depth, destination, overwrite, if, if-match, if-none-match, range, accept, user-agent");
   ("Access-Control-Expose-Headers",
    "etag, content-length, content-type, date, last-modified")].

Definition carries (expected : list (string * string)) (res : ServerResponse) : Prop :=
  Forall (fun nv => Response.getHeader nv.1 res = Some nv.2) expected.


(** A variable of the environment that is unset, empty or all white space. *)
Definition blank (v : option string) : Prop :=
  match v with
  | Some s => JsString.trim s = EmptyString
  | None => True
  end.

(** What a storage computation did between [s] and [s']: every access it
    added to the journal lies at or beneath [root], and the store outside
    [root] is as it was. *)
Definition inside (root : list string) (s s' : Storage.Store) : Prop :=
  (exists new,
      Storage.journal s' = new ++ Storage.journal s
      /\ Forall (fun a => root `prefix_of` Storage.place a) new)
  /\ forall k, ¬ root `prefix_of` k -> Storage.tree s' !! k = Storage.tree s !! k.

(** A storage computation that stays inside [root] from every store. *)
Definition confined (root : list string) {A : Type} (m : Storage.M A) : Prop :=
  forall s, inside root s (m s).2.

(** A handler whose status code, when it replies, satisfies [P]. *)
Definition repliesWith (P : Z -> Prop) (m : Storage.M (Z * string)) : Prop :=
  forall s code content s', m s = (inr (code, content), s') -> P code.

(** ** Further properties the statements below are phrased with *)

(** The names [setCorsHeaders] sets. *)
Definition corsHeaderNames : list string :=
  responseHeaderNames
  ++ ["Access-Control-Allow-Methods"; "Access-Control-Allow-Headers";
      "Access-Control-Expose-Headers"].

(** The decimal numeral of an integer, as [String(n)] prints it. *)
Definition decimal (n : Z) : string :=
  DecimalString.NilZero.string_of_int (Z.to_int n).

(** A string that is empty or begins with a character [trim] keeps. *)
Definition startsClean (s : string) : Prop :=
  match s with
  | EmptyString => True
  | String c _ => JsString.isWhiteSpace c = false
  end.

(** A number that is NaN, a zero, or negative. *)
Definition notPositive (x : JsNumber.number) : Prop :=
  match x with
  | S754_nan | S754_zero _ => True
  | S754_infinity s | S754_finite s _ _ => s = true
  end.

(** The digits of a decimal numeral, first digit first. *)
Fixpoint uintDigits (d : Decimal.uint) : list Z :=
  match d with
  | Decimal.Nil => []
  | Decimal.D0 l => 0 :: uintDigits l
  | Decimal.D1 l => 1 :: uintDigits l
  | Decimal.D2 l => 2 :: uintDigits l
  | Decimal.D3 l => 3 :: uintDigits l
  | Decimal.D4 l => 4 :: uintDigits l
  | Decimal.D5 l => 5 :: uintDigits l
  | Decimal.D6 l => 6 :: uintDigits l
  | Decimal.D7 l => 7 :: uintDigits l
  | Decimal.D8 l => 8 :: uintDigits l
  | Decimal.D9 l => 9 :: uintDigits l
  end.

(** A string without a character that [trim] removes. *)
Fixpoint unspaced (s : string) : bool :=
  match s with
  | EmptyString => true
  | String c r => negb (JsString.isWhiteSpace c) && unspaced r
  end.

(** The host [h] with PASSWORD set to [value] in its environment. *)
Definition withPassword (value : string) (h : Host) : Host :=
  {| penv := <["PASSWORD" := value]> (penv h);
     cwd := cwd h;
     existsSync := existsSync h;
     mkdirSync := mkdirSync h;
     bind := bind h |}.

Definition isWarning (line : Console) : bool :=
  match line with
  | console_warn _ => true
  | console_log _ => false
  end.

(** The outcome of [start] without the warnings it printed. *)
Definition withoutWarnings (outcome : StartError + list Console)
  : StartError + list Console :=
  match outcome with
  | inl e => inl e
  | inr lines => inr (List.filter (fun line => negb (isWarning line)) lines)
  end.

(** * Theorems *)

(** ** Front door *)

(** A concrete string is none of the concrete strings of a list. *)
Ltac not_among :=
  rewrite ?not_elem_of_cons;
  repeat split; solve [discriminate | apply not_elem_of_nil].

Section FrontDoor.

Context {S : Type} (engine : Engine S).

Lemma getHeader_setHeader name name' value res :
  Response.getHeader name (Response.setHeader name' value res)
  = if decide (JsString.toLowerCase name' = JsString.toLowerCase name)
    then Some value else Response.getHeader name res.
Proof.
  unfold Response.getHeader, Response.setHeader; simpl.
  case_decide as E.
  - rewrite E. apply lookup_insert_eq.
  - by apply lookup_insert_ne.
Qed.

Lemma allowOrigin_spec req :
  allowOrigin req
  = match headers req !! "origin" with
    | Some origin => if decide (origin = EmptyString) then "*" else origin
    | None => "*"
    end.
Proof.
  unfold allowOrigin. destruct (headers req !! "origin") as [[|c o]|]; done.
Qed.

(** [setCorsHeaders] sets the eight headers, whatever the response held. *)
Lemma setCorsHeaders_carries req res :
  carries (responseHeaders req ++ preflightHeaders) (setCorsHeaders req res).
Proof.
  unfold carries, responseHeaders, preflightHeaders.
  rewrite <- allowOrigin_spec. cbv [setCorsHeaders].
  repeat (apply Forall_cons; split); [ .. | by apply Forall_nil ].
  all: cbn [fst snd app]; rewrite !getHeader_setHeader; reflexivity.
Qed.

Lemma carries_setHeader_other expected name value res :
  JsString.toLowerCase name ∉ (JsString.toLowerCase <$> expected.*1) ->
  carries expected res ->
  carries expected (Response.setHeader name value res).
Proof.
  unfold carries. rewrite !Forall_forall. intros Hn H nv Hnv.
  rewrite getHeader_setHeader. case_decide as E; [|by apply H].
  exfalso. apply Hn. rewrite E.
  apply list_elem_of_fmap. exists nv.1. split; [done|].
  apply list_elem_of_fmap. by exists nv.
Qed.

(** C4: a request whose method is OPTIONS, on any URL (the health URL
    included), is answered at once with 204, the CORS headers and an empty
    body; the answer does not depend on the engine, whose state is left as
    it was. *)
Theorem preflight_no_content (req : IncomingMessage) (st : S) :
  method req = "OPTIONS" ->
  exists res,
    serve engine req st = (res, st)
    /\ statusCode res = 204
    /\ body res = EmptyString
    /\ finished res = true
    /\ carries (responseHeaders req ++ preflightHeaders) res.
Proof.
  intros Hm. unfold serve, requestListener.
  rewrite decide_True by exact Hm.
  eexists; split; [reflexivity|].
  repeat split. apply (setCorsHeaders_carries req Response.fresh).
Qed.

(** C3: GET /health is answered with 200 and the body [ok], with the CORS
    headers, whatever headers the request carries and whatever state the
    engine is in; the answer does not depend on the engine, whose state is
    left as it was. *)
Theorem health_check_ok (req : IncomingMessage) (st : S) :
  method req = "GET" ->
  url req = "/health" ->
  exists res,
    serve engine req st = (res, st)
    /\ statusCode res = 200
    /\ body res = "ok"
    /\ finished res = true
    /\ carries (responseHeaders req ++ preflightHeaders) res.
Proof.
  intros Hm Hu. unfold serve, requestListener.
  rewrite decide_False by (rewrite Hm; discriminate).
  rewrite decide_True by exact Hu.
  eexists; split; [reflexivity|].
  repeat split.
  apply (carries_setHeader_other _ "Content-Type").
  - cbn. not_among.
  - apply (setCorsHeaders_carries req Response.fresh).
Qed.

(** C9: the health check compares the whole URL with [/health] and does
    not look at the method. A request that is not a preflight and whose URL
    is exactly [/health] is answered with 200 and [ok] whatever its method and
    headers, by the listener alone: the engine is not called and its state
    stays as it was, so nothing is created, read or deleted for that URL.
    The URLs [/health/] and [/health?...] are handed to the engine. *)
Theorem health_url_exact (req : IncomingMessage) (st : S) :
  method req <> "OPTIONS" ->
  (url req = "/health" ->
   exists res,
     serve engine req st = (res, st)
     /\ statusCode res = 200 /\ body res = "ok" /\ finished res = true)
  /\ (url req = "/health/" \/ (exists query, url req = "/health?" +:+ query) ->
      serve engine req st = engine req (setCorsHeaders req Response.fresh) st).
Proof.
  intros Hm. unfold serve, requestListener.
  rewrite decide_False by exact Hm. split.
  - intros Hu. rewrite decide_True by exact Hu.
    eexists; split; [reflexivity|]. by repeat split.
  - intros Hu. rewrite decide_False; [reflexivity|].
    destruct Hu as [Hu|[query Hu]]; rewrite Hu; discriminate.
Qed.


End FrontDoor.


(** ** Configuration *)

Lemma orElse_truthy v d :
  JsString.truthy d = true -> JsString.truthy (orElse v d) = true.
Proof.
  intros Hd. unfold orElse. destruct v as [s|]; [|done].
  by destruct (JsString.truthy s) eqn:E.
Qed.

Lemma orElse_blank penv name d :
  blank (penv !! name) -> orElse (envTrim penv name) d = d.
Proof.
  unfold blank, envTrim, orElse. destruct (penv !! name) as [s|]; simpl; [|done].
  by intros ->.
Qed.

Lemma orElse_set penv name d v :
  penv !! name = Some v -> JsString.trim v <> EmptyString ->
  orElse (envTrim penv name) d = JsString.trim v.
Proof.
  unfold envTrim, orElse. intros -> Hv. simpl.
  by destruct (JsString.trim v).
Qed.

Lemma truthy_nonempty s : JsString.truthy s = true -> s <> EmptyString.
Proof. by destruct s. Qed.

Lemma isAbsolute_truthy p : Path.isAbsolute p = true -> JsString.truthy p = true.
Proof. by destruct p. Qed.

(** [path.resolve(process.cwd(), 'data')] in a process whose working
    directory is absolute. *)
Lemma resolve_data cwd :
  Path.isAbsolute cwd = true ->
  Path.resolve cwd [cwd; "data"]
  = "/" +:+ Path.normalizeString (cwd +:+ "/" +:+ "data" +:+ "/" +:+ EmptyString) false.
Proof.
  intros Hcwd. unfold Path.resolve.
  change (rev [cwd; "data"]) with ["data"; cwd].
  cbn [Path.resolveLoop JsString.truthy Path.isAbsolute].
  change (Path.resolveLoop cwd [cwd] ("data" +:+ "/" +:+ EmptyString))
    with (if JsString.truthy cwd
          then if Path.isAbsolute cwd
               then (cwd +:+ "/" +:+ "data" +:+ "/" +:+ EmptyString, true)
               else Path.resolveLoop cwd [] (cwd +:+ "/" +:+ "data" +:+ "/" +:+ EmptyString)
          else Path.resolveLoop cwd [] ("data" +:+ "/" +:+ EmptyString)).
  by rewrite (isAbsolute_truthy _ Hcwd), Hcwd.
Qed.

(** What [readEnv] returns when it returns. *)
Lemma readEnv_inr penv cwd env :
  readEnv penv cwd = inr env ->
  env = {| HOST := orElse (envTrim penv "HOST") "0.0.0.0";
           PORT := JsNumber.ofString (orElse (envTrim penv "PORT") "2345");
           DATA_DIR := orElse (envTrim penv "DATA_DIR") (Path.resolve cwd [cwd; "data"]);
           USERNAME := orElse (envTrim penv "USERNAME") "admin";
           PASSWORD := orElse (envTrim penv "PASSWORD") "admin";
           REALM := orElse (envTrim penv "REALM") "Super Productivity Sync" |}.
Proof.
  unfold readEnv.
  repeat match goal with |- context [if ?b then _ else _] => destruct b end;
    congruence.
Qed.

(** The port test of [readEnv]: it throws [Invalid PORT] exactly when the
    number is not finite, is at most 0 or is above 65535. *)
Lemma readEnv_port_check penv cwd :
  let portRaw := orElse (envTrim penv "PORT") "2345" in
  let port := JsNumber.ofString portRaw in
  if negb (JsNumber.isFinite port)
     || JsNumber.le port (JsNumber.ofZ 0)
     || JsNumber.gt port (JsNumber.ofZ 65535)
  then readEnv penv cwd = inl (InvalidPort portRaw)
  else exists env, readEnv penv cwd = inr env /\ PORT env = port.
Proof.
  intros portRaw port. unfold readEnv. fold portRaw. fold port.
  destruct (_ || _); [done|].
  rewrite (orElse_truthy (envTrim penv "USERNAME") "admin" eq_refl).
  rewrite (orElse_truthy (envTrim penv "PASSWORD") "admin" eq_refl).
  simpl. by eexists.
Qed.

(** C10: an unset, empty or blank USERNAME or PASSWORD becomes [admin]
    before the emptiness checks, so [readEnv] never throws
    [USERNAME must not be empty] or [PASSWORD must not be empty], and the
    user name and the password of every [Env] it returns are not empty. *)
Theorem empty_credentials_unreachable (penv : gmap string string) (cwd : string) :
  (forall name, blank (penv !! name) -> orElse (envTrim penv name) "admin" = "admin")
  /\ readEnv penv cwd <> inl UsernameEmpty
  /\ readEnv penv cwd <> inl PasswordEmpty
  /\ (forall env, readEnv penv cwd = inr env ->
                  USERNAME env <> EmptyString /\ PASSWORD env <> EmptyString).
Proof.
  split; [intros name; apply orElse_blank|].
  assert (Hu := orElse_truthy (envTrim penv "USERNAME") "admin" eq_refl).
  assert (Hp := orElse_truthy (envTrim penv "PASSWORD") "admin" eq_refl).
  split; [|split].
  - unfold readEnv. rewrite Hu, Hp. simpl.
    by destruct (_ || _).
  - unfold readEnv. rewrite Hu, Hp. simpl.
    by destruct (_ || _).
  - intros env ->%readEnv_inr. simpl. split; by apply truthy_nonempty.
Qed.

(** C7, as the code has it: when [readEnv] returns, the storage root is the
    [data] directory of the working directory, resolved to an absolute path,
    if DATA_DIR is unset, empty or blank; otherwise it is the value of
    DATA_DIR with the white space around it removed, as it was supplied. *)
Theorem storage_root_resolution (penv : gmap string string) (cwd : string) (env : Env) :
  readEnv penv cwd = inr env ->
  Path.isAbsolute cwd = true ->
  (blank (penv !! "DATA_DIR") ->
   DATA_DIR env = Path.resolve cwd [cwd; "data"]
   /\ Path.isAbsolute (DATA_DIR env) = true)
  /\ (forall v, penv !! "DATA_DIR" = Some v -> JsString.trim v <> EmptyString ->
                DATA_DIR env = JsString.trim v).
Proof.
  intros ->%readEnv_inr Hcwd. simpl. split.
  - intros Hb. rewrite orElse_blank by exact Hb. split; [done|].
    by rewrite resolve_data.
  - intros v Hv Ht. by apply orElse_set.
Qed.

(** C7, as the specification has it, fails: DATA_DIR=./data is returned as
    it is, and it is not an absolute path. *)
Lemma relative_storage_root_kept :
  exists env,
    readEnv {[ "DATA_DIR" := "./data" ]} "/srv" = inr env
    /\ DATA_DIR env = "./data"
    /\ Path.isAbsolute (DATA_DIR env) = false.
Proof. eexists. split; [vm_compute; reflexivity|]. by split. Qed.

(** C6: [readEnv] takes PORT=80.5: the number is finite, above 0 and not
    above 65535, and nothing asks whether it is an integer. *)
Lemma fractional_port_accepted :
  exists env,
    readEnv {[ "PORT" := "80.5" ]} "/srv" = inr env
    /\ PORT env = S754_finite false 5664683906301952 (-46)
    /\ JsNumber.isInteger (PORT env) = false
    /\ JsNumber.gt (PORT env) (JsNumber.ofZ 80) = true
    /\ JsNumber.gt (JsNumber.ofZ 81) (PORT env) = true.
Proof. eexists. split; [vm_compute; reflexivity|]. by vm_compute. Qed.

(** ** Start-up *)

(** C8, as the code has it: a start-up that succeeds prints the warning
    exactly when the password is [admin] or [change-me]; it prints no other
    warning, and the user name plays no part. *)
Theorem weak_password_warning (h : Host) (lines : list Console) :
  start h = inr lines ->
  exists env,
    readEnv (penv h) (cwd h) = inr env
    /\ (console_warn weakPasswordWarning ∈ lines
        <-> PASSWORD env = "admin" \/ PASSWORD env = "change-me")
    /\ (forall w, console_warn w ∈ lines -> w = weakPasswordWarning).
Proof.
  unfold start. destruct (readEnv (penv h) (cwd h)) as [e|env]; [done|].
  destruct (if existsSync h (DATA_DIR env) then None else mkdirSync h (DATA_DIR env));
    [done|].
  destruct (listen h (PORT env) (HOST env)) as [e|port]; [done|].
  intros [= <-]. exists env. split; [done|].
  assert (Hw : usesWeakPassword env = true
               <-> PASSWORD env = "admin" \/ PASSWORD env = "change-me").
  { unfold usesWeakPassword. by rewrite orb_true_iff, !bool_decide_eq_true. }
  destruct (usesWeakPassword env); simpl.
  - split.
    + split; [intros _; by apply Hw | intros _; apply elem_of_cons; by left].
    + intros w [Hin|Hin]%elem_of_cons; [congruence|].
      by apply list_elem_of_singleton in Hin.
  - split.
    + split; [intros Hin; by apply list_elem_of_singleton in Hin|].
      intros Hp. by apply Hw in Hp.
    + intros w Hin. by apply list_elem_of_singleton in Hin.
Qed.

(** C8, as the specification has it, fails: with the user name [admin] and
    a password that is neither [admin] nor [change-me] the server starts and
    prints the summary only. *)
Lemma weak_username_no_warning :
  exists env,
    let h := {| penv := {[ "USERNAME" := "admin"; "PASSWORD" := "correct horse" ]};
                cwd := "/srv";
                existsSync := fun _ => true;
                mkdirSync := fun _ => None;
                bind := fun _ _ => None |} in
    readEnv (penv h) (cwd h) = inr env
    /\ USERNAME env = "admin"
    /\ start h = inr [console_log "[cross-device-sync-server] started host=0.0.0.0 port=2345 dataDir=/srv/data username=admin"].
Proof. eexists. split; [vm_compute; reflexivity|]. split; by vm_compute. Qed.

(** ** Storage Backend *)

Section StorageSafety.

Import Storage.

Variable root : list string.
Variable recursiveDelete : bool.

Lemma inside_refl s : inside root s s.
Proof. split; [exists []; by split|done]. Qed.

Lemma inside_trans s1 s2 s3 :
  inside root s1 s2 -> inside root s2 s3 -> inside root s1 s3.
Proof.
  intros [(n1 & J1 & F1) T1] [(n2 & J2 & F2) T2]. split.
  - exists (n2 ++ n1). rewrite J2, J1, (assoc_L (++)). split; [done|].
    by apply Forall_app.
  - intros k Hk. by rewrite T2, T1.
Qed.

Lemma inside_logged new s :
  Forall (fun a => root `prefix_of` place a) new -> inside root s (logged new s).
Proof. intros Hnew. split; [by exists new|done]. Qed.

Lemma confined_ret {A} (a : A) : confined root (mret a).
Proof. intros s. apply inside_refl. Qed.

Lemma confined_fail {A} e : confined root (fail e : M A).
Proof. intros s. apply inside_refl. Qed.

Lemma confined_bind {A B} (m : M A) (k : A -> M B) :
  confined root m -> (forall a, confined root (k a)) -> confined root (m ≫= k).
Proof.
  intros Hm Hk s. unfold mbind, M_bind. specialize (Hm s).
  destruct (m s) as [[e|a] s'] eqn:E; simpl in *; [done|].
  eapply inside_trans; [exact Hm|apply Hk].
Qed.

Lemma confined_readAt loc : root `prefix_of` loc -> confined root (readAt loc).
Proof. intros Hloc s. apply inside_logged. by repeat constructor. Qed.

Lemma confined_readChildren loc :
  root `prefix_of` loc -> confined root (readChildren loc).
Proof. intros Hloc s. apply inside_logged. by repeat constructor. Qed.

Lemma confined_tick : confined root tick.
Proof. intros s. split; [by exists []|done]. Qed.

Lemma confined_writeAt loc r : root `prefix_of` loc -> confined root (writeAt loc r).
Proof.
  intros Hloc s. split; simpl.
  - exists [Write loc]. split; [done|]. by repeat constructor.
  - intros k Hk. apply lookup_insert_ne. by intros ->.
Qed.

Lemma beneath_prefix loc t k :
  k ∈ (beneath loc t).*1 -> loc `prefix_of` k.
Proof.
  intros [[k' r] [-> Hin]]%list_elem_of_fmap.
  by apply list_elem_of_filter in Hin as [? _].
Qed.

Lemma confined_removeTree loc : root `prefix_of` loc -> confined root (removeTree loc).
Proof.
  intros Hloc s. split; simpl.
  - eexists. split; [reflexivity|].
    apply Forall_fmap, Forall_forall. intros k Hk. simpl.
    etrans; [exact Hloc|]. eapply beneath_prefix, Hk.
  - intros k Hk. apply option_eq. intros r.
    rewrite map_lookup_filter_Some. simpl. split; [tauto|].
    intros Hr. split; [done|]. intros Hp. apply Hk. by etrans.
Qed.

Lemma confined_graft src dst :
  root `prefix_of` src -> root `prefix_of` dst -> confined root (graft src dst).
Proof.
  intros Hsrc Hdst s. split; simpl.
  - eexists. split; [reflexivity|]. apply Forall_app. split.
    + apply Forall_fmap, Forall_forall. intros k Hk. simpl.
      apply list_elem_of_fmap in Hk as [[k' r] [-> Hk]].
      apply list_elem_of_fmap in Hk as [[k'' r'] [[= -> ->] Hk]]. simpl.
      by apply prefix_app_r.
    + apply Forall_fmap, Forall_forall. intros k Hk. simpl.
      etrans; [exact Hsrc|]. eapply beneath_prefix, Hk.
  - intros k Hk. apply lookup_union_r, not_elem_of_list_to_map_1.
    intros Hin. apply Hk.
    apply list_elem_of_fmap in Hin as [[k' r] [-> Hin]].
    apply list_elem_of_fmap in Hin as [[k'' r'] [[= -> ->] Hin]]. simpl.
    by apply prefix_app_r.
Qed.

Lemma prefix_parent loc :
  root `prefix_of` loc -> loc <> root -> root `prefix_of` parent loc.
Proof.
  intros [k ->] Hne. unfold parent.
  destruct k as [|x k]; [by rewrite (right_id_L [] (++)) in Hne|].
  rewrite length_app. simpl.
  replace (length root + S (length k) - 1)%nat
    with (length root + length k)%nat by lia.
  rewrite take_app_add. by apply prefix_app_r.
Qed.

Lemma confined_requireParent loc :
  root `prefix_of` loc -> confined root (requireParent root loc).
Proof.
  intros Hloc. unfold requireParent. case_decide as E; [apply confined_fail|].
  apply confined_bind; [by apply confined_readAt, prefix_parent|].
  intros [[|]|]; first [apply confined_ret | apply confined_fail].
Qed.

Lemma confined_replaceTree src dst :
  root `prefix_of` src -> root `prefix_of` dst ->
  confined root (replaceTree root src dst).
Proof.
  intros Hsrc Hdst. unfold replaceTree. case_decide; [apply confined_fail|].
  apply confined_bind; [by apply confined_readAt|].
  intros [r|]; [|apply confined_fail].
  apply confined_bind; [by apply confined_requireParent|intros _].
  apply confined_bind; [by apply confined_removeTree|intros _].
  by apply confined_graft.
Qed.

(** The steps of a confined computation, taken apart. *)
Ltac confine :=
  repeat first
    [ apply confined_ret
    | apply confined_fail
    | apply confined_tick
    | apply confined_readAt; assumption
    | apply confined_readChildren; assumption
    | apply confined_writeAt; assumption
    | apply confined_removeTree; assumption
    | apply confined_requireParent; assumption
    | apply confined_replaceTree; assumption
    | apply confined_bind; [|intros ?]
    | match goal with
      | |- confined _ (match ?x with _ => _ end) => destruct x
      | |- confined _ (if ?b then _ else _) => destruct b
      end ].

Lemma confined_run op :
  Forall (prefix root) (targets op) -> confined root (run root recursiveDelete op).
Proof.
  destruct op; simpl; intros Hall;
    repeat match goal with
           | H : Forall _ (_ :: _) |- _ => apply Forall_cons in H as [? H]
           end;
    confine.
Qed.

Lemma confined_perform op : confined root (perform root recursiveDelete op).
Proof.
  unfold perform. case_decide; [by apply confined_run|apply confined_fail].
Qed.

(** C1: a request to the backend has its paths normalized first, and the
    outcome depends on the paths through their normalized locations only;
    every access of the request is at or beneath the storage root and the
    store outside the root stays as it was; a request with a path that
    normalizes to a location outside the root is refused with
    PathTraversalDenied before the store is touched. *)
Theorem traversal_denied (op : Operation string) (s : Store) :
  inside root s (perform root recursiveDelete op s).2
  /\ (List.Exists (fun p => ¬ root `prefix_of` locate root p) (targets op) ->
      perform root recursiveDelete op s = (inl PathTraversalDenied, s))
  /\ (forall op', opMap (locate root) op' = opMap (locate root) op ->
                  perform root recursiveDelete op' s = perform root recursiveDelete op s).
Proof.
  split; [apply confined_perform|]. split.
  - intros Hout. unfold perform. rewrite decide_False; [done|].
    intros Hall. apply Exists_exists in Hout as (p & Hp & Hnot). apply Hnot.
    rewrite Forall_forall in Hall. apply Hall.
    destruct op; simpl in *;
      repeat (apply elem_of_cons in Hp as [->|Hp]; [set_solver|]);
      by apply elem_of_nil in Hp.
  - intros op' Heq. unfold perform. by rewrite Heq.
Qed.

End StorageSafety.

(** ** Identity check of the engine *)

Section Authentication.

Import Storage.

Lemma repliesWith_ret (P : Z -> Prop) code content :
  P code -> repliesWith P (mret (code, content)).
Proof. intros HP s code' content' s' [= <- _ _]. exact HP. Qed.

Lemma repliesWith_bind {A} (P : Z -> Prop) (m : M A) (k : A -> M (Z * string)) :
  (forall a, repliesWith P (k a)) -> repliesWith P (m ≫= k).
Proof.
  intros Hk s code content s'. unfold mbind, M_bind.
  destruct (m s) as [[e|a] s1]; [done|]. apply Hk.
Qed.

Ltac replies :=
  repeat first
    [ apply repliesWith_ret; discriminate
    | apply repliesWith_bind; intros ?
    | match goal with
      | |- repliesWith _ (match ?x with _ => _ end) => destruct x
      | |- repliesWith _ (if ?b then _ else _) => destruct b
      | |- repliesWith _ (mret (match ?x with _ => _ end, _)) => destruct x
      end ].

(** No entry of the dispatch table replies 401. *)
Lemma table_not_401 cfg name handler path req :
  ProtocolEngine.table cfg !! name = Some handler ->
  repliesWith (fun code => code <> 401) (handler path req).
Proof.
  intros Hin. apply elem_of_list_to_map_2 in Hin.
  repeat (apply elem_of_cons in Hin as [[= _ ->]|Hin];
          [unfold ProtocolEngine.doGet, ProtocolEngine.doHead, ProtocolEngine.doPut,
             ProtocolEngine.doDelete, ProtocolEngine.doMkcol,
             ProtocolEngine.doPropfind, ProtocolEngine.withDestination;
           replies|]).
  by apply elem_of_nil in Hin.
Qed.

Lemma errorStatus_not_401 e : ProtocolEngine.errorStatus e <> 401.
Proof. by destruct e. Qed.

Lemma authenticate_inr configured credentials who :
  Identity.authenticate configured credentials = inr who ->
  who = configured
  /\ credentials = Some (Identity.username configured, Identity.secret configured).
Proof.
  unfold Identity.authenticate. destruct credentials as [[user pass]|]; [|done].
  destruct (bool_decide (user = _)) eqn:Eu; [|done].
  destruct (bool_decide (pass = _)) eqn:Ep; [|done].
  apply bool_decide_eq_true in Eu, Ep. by intros [= <-]; subst.
Qed.

Lemma authenticate_correct configured :
  Identity.authenticate configured
    (Some (Identity.username configured, Identity.secret configured))
  = inr configured.
Proof.
  unfold Identity.authenticate. by rewrite !bool_decide_eq_true_2.
Qed.

(** C2: a request that is neither a preflight nor the health check and
    carries no Basic credentials, or credentials other than the configured
    user name and password, is answered 401 with the challenge
    [WWW-Authenticate: Basic realm=...] for the configured realm, and the
    store with its journal is as before: the answer is made before any
    access. The same request with the configured credentials is not
    answered 401. *)
Theorem unauthenticated_is_401 (h : Host) (env : Env) (req : IncomingMessage)
    (st : Store) :
  method req <> "OPTIONS" ->
  url req <> "/health" ->
  (Identity.basicCredentials req <> Some (USERNAME env, PASSWORD env) ->
   exists res,
     httpServer h env req st = (res, st)
     /\ statusCode res = 401
     /\ finished res = true
     /\ Response.getHeader "WWW-Authenticate" res
        = Some ("Basic realm=" +:+ JsString.dquote +:+ REALM env +:+ JsString.dquote))
  /\ (Identity.basicCredentials req = Some (USERNAME env, PASSWORD env) ->
      statusCode (httpServer h env req st).1 <> 401).
Proof.
  intros Hm Hu. unfold httpServer, serve, requestListener.
  rewrite (decide_False _ _ Hm), (decide_False _ _ Hu).
  unfold wServer, ProtocolEngine.executeRequest.
  cbn [ProtocolEngine.principal ProtocolEngine.realm].
  set (configured := {| Identity.username := USERNAME env |}).
  split.
  - intros Hc.
    destruct (Identity.authenticate configured _) as [e|who] eqn:E.
    + eexists. split; [reflexivity|]. split; [done|]. split; [done|].
      unfold ProtocolEngine.reply.
      change (Response.getHeader "WWW-Authenticate"
                (Response.setHeader "WWW-Authenticate"
                   (ProtocolEngine.challenge (REALM env))
                   (setCorsHeaders req Response.fresh))
              = Some (ProtocolEngine.challenge (REALM env))).
      by rewrite getHeader_setHeader, decide_True.
    + by apply authenticate_inr in E as [_ E].
  - intros ->.
    change (Some (USERNAME env, PASSWORD env))
      with (Some (Identity.username configured, Identity.secret configured)).
    rewrite (authenticate_correct configured).
    unfold Identity.authorize. rewrite bool_decide_eq_true_2 by done.
    destruct (ProtocolEngine.table _ !! method req) as [handler|] eqn:Eh; [|done].
    destruct (handler _ req st) as [[e|[code content]] st'] eqn:Er; simpl.
    + apply errorStatus_not_401.
    + eapply table_not_401; [exact Eh|exact Er].
Qed.

End Authentication.

(** ** The server as a whole *)

Section ServerSafety.

Import Storage.

Lemma confined_backend cfg op :
  confined (ProtocolEngine.root cfg) (ProtocolEngine.backend cfg op).
Proof. apply confined_perform. Qed.

Ltac confine_handler :=
  repeat first
    [ apply confined_ret
    | apply confined_backend
    | apply confined_bind; [|intros ?]
    | match goal with
      | |- confined _ (match ?x with _ => _ end) => destruct x
      end ].

(** Every entry of the dispatch table stays inside the storage root. *)
Lemma table_confined cfg name handler path req :
  ProtocolEngine.table cfg !! name = Some handler ->
  confined (ProtocolEngine.root cfg) (handler path req).
Proof.
  intros Hin. apply elem_of_list_to_map_2 in Hin.
  repeat (apply elem_of_cons in Hin as [[= _ ->]|Hin];
          [unfold ProtocolEngine.doGet, ProtocolEngine.doHead, ProtocolEngine.doPut,
             ProtocolEngine.doDelete, ProtocolEngine.doMkcol,
             ProtocolEngine.doPropfind, ProtocolEngine.withDestination;
           confine_handler|]).
  by apply elem_of_nil in Hin.
Qed.

Lemma executeRequest_inside cfg req res st :
  inside (ProtocolEngine.root cfg) st (ProtocolEngine.executeRequest cfg req res st).2.
Proof.
  unfold ProtocolEngine.executeRequest.
  destruct (Identity.authenticate _ _) as [e|who]; [apply inside_refl|].
  destruct (Identity.authorize _ _ _ _); [|apply inside_refl].
  destruct (ProtocolEngine.table cfg !! method req) as [handler|] eqn:Eh;
    [|apply inside_refl].
  pose proof (table_confined cfg _ _ (ProtocolEngine.requestPath (url req)) req Eh st)
    as Hc.
  by destruct (handler _ req st) as [[e|[code content]] st'].
Qed.

(** Whatever the request, the accesses the server makes for it are at or
    beneath the data directory, and the store outside it stays as it was. *)
Lemma httpServer_inside h env req st :
  inside
    (Path.normalizeSegments false []
       (JsString.split "/" (Path.resolve (cwd h) [DATA_DIR env])))
    st (httpServer h env req st).2.
Proof.
  unfold httpServer, serve, requestListener.
  destruct (decide (method req = "OPTIONS")); [apply inside_refl|].
  destruct (decide (url req = "/health")); [apply inside_refl|].
  unfold wServer.
  exact (executeRequest_inside
           {| ProtocolEngine.principal := _; ProtocolEngine.realm := _;
              ProtocolEngine.root := _; ProtocolEngine.recursiveDelete := _ |}
           req _ st).
Qed.

End ServerSafety.

(** ** The theorems at the requests of [index.test.ts] *)

Lemma readEnv_testHost :
  readEnv (penv Fixture.testHost) (cwd Fixture.testHost) = inr Fixture.testEnv.
Proof. by vm_compute. Qed.

(** OPTIONS /health: the preflight answer, not the health check. *)
Lemma preflight_no_content_witness :
  exists res,
    httpServer Fixture.testHost Fixture.testEnv
      (Fixture.makeRequest "OPTIONS" "/health" None) Fixture.emptyStore
    = (res, Fixture.emptyStore)
    /\ statusCode res = 204
    /\ body res = EmptyString
    /\ finished res = true
    /\ carries (responseHeaders (Fixture.makeRequest "OPTIONS" "/health" None)
                ++ preflightHeaders) res.
Proof.
  apply (preflight_no_content (wServer Fixture.testHost Fixture.testEnv)
           (Fixture.makeRequest "OPTIONS" "/health" None)).
  reflexivity.
Defined.

(** GET /health without credentials. *)
Lemma health_check_ok_witness :
  exists res,
    httpServer Fixture.testHost Fixture.testEnv
      (Fixture.makeRequest "GET" "/health" None) Fixture.emptyStore
    = (res, Fixture.emptyStore)
    /\ statusCode res = 200
    /\ body res = "ok"
    /\ finished res = true
    /\ carries (responseHeaders (Fixture.makeRequest "GET" "/health" None)
                ++ preflightHeaders) res.
Proof.
  apply (health_check_ok (wServer Fixture.testHost Fixture.testEnv)
           (Fixture.makeRequest "GET" "/health" None)); reflexivity.
Defined.

(** PUT /health is the health check; PUT /health?x reaches the engine, which
    creates the document. *)
Lemma health_url_exact_witness :
  (exists res,
      httpServer Fixture.testHost Fixture.testEnv
        (Fixture.makeRequest "PUT" "/health" (Some Fixture.validAuth))
        Fixture.emptyStore
      = (res, Fixture.emptyStore)
      /\ statusCode res = 200 /\ body res = "ok" /\ finished res = true)
  /\ statusCode
       (httpServer Fixture.testHost Fixture.testEnv
          (Fixture.makeRequest "PUT" "/health?x" (Some Fixture.validAuth))
          Fixture.emptyStore).1 = 201.
Proof.
  split.
  - apply (health_url_exact (wServer Fixture.testHost Fixture.testEnv)
             (Fixture.makeRequest "PUT" "/health" (Some Fixture.validAuth))
             Fixture.emptyStore); [discriminate|reflexivity].
  - unfold httpServer.
    rewrite (proj2 (health_url_exact (wServer Fixture.testHost Fixture.testEnv)
                      (Fixture.makeRequest "PUT" "/health?x" (Some Fixture.validAuth))
                      Fixture.emptyStore ltac:(discriminate)));
      [by vm_compute|].
    right. by exists "x".
Defined.


(** PROPFIND / with a wrong password, and with the right one. *)
Lemma unauthenticated_is_401_witness :
  (exists res,
      httpServer Fixture.testHost Fixture.testEnv
        (Fixture.makeRequest "PROPFIND" "/" (Some Fixture.invalidAuth))
        Fixture.emptyStore
      = (res, Fixture.emptyStore)
      /\ statusCode res = 401
      /\ finished res = true
      /\ Response.getHeader "WWW-Authenticate" res
         = Some ("Basic realm=" +:+ JsString.dquote +:+ "Test Realm" +:+ JsString.dquote))
  /\ statusCode
       (httpServer Fixture.testHost Fixture.testEnv
          (Fixture.makeRequest "PROPFIND" "/" (Some Fixture.validAuth))
          Fixture.emptyStore).1 <> 401.
Proof.
  split.
  - apply (unauthenticated_is_401 Fixture.testHost Fixture.testEnv
             (Fixture.makeRequest "PROPFIND" "/" (Some Fixture.invalidAuth))
             Fixture.emptyStore); [discriminate|discriminate|].
    by vm_compute.
  - apply (unauthenticated_is_401 Fixture.testHost Fixture.testEnv
             (Fixture.makeRequest "PROPFIND" "/" (Some Fixture.validAuth))
             Fixture.emptyStore); [discriminate|discriminate|].
    by vm_compute.
Defined.

(** Reading [/../../etc/passwd] beneath [/srv/test-data]. *)
Lemma traversal_denied_witness :
  Storage.perform ["srv"; "test-data"] true
    (Storage.ReadDocument "/../../etc/passwd") Fixture.emptyStore
  = (inl Storage.PathTraversalDenied, Fixture.emptyStore).
Proof.
  apply (proj1 (proj2 (traversal_denied ["srv"; "test-data"] true
                         (Storage.ReadDocument "/../../etc/passwd")
                         Fixture.emptyStore))).
  apply Exists_cons_hd. intros [k Hk]. vm_compute in Hk. discriminate Hk.
Defined.

Lemma readEnv_defaults :
  readEnv ∅ "/srv"
  = inr {| HOST := "0.0.0.0"; PORT := JsNumber.ofZ 2345; DATA_DIR := "/srv/data";
           USERNAME := "admin"; PASSWORD := "admin";
           REALM := "Super Productivity Sync" |}.
Proof. by vm_compute. Qed.

(** DATA_DIR as the tests set it, and the default in [/srv]. *)
Lemma storage_root_resolution_witness :
  DATA_DIR Fixture.testEnv = "/srv/test-data"
  /\ Path.resolve "/srv" ["/srv"; "data"] = "/srv/data"
  /\ Path.isAbsolute "/srv/data" = true.
Proof.
  split.
  - apply (proj2 (storage_root_resolution _ _ _ readEnv_testHost eq_refl)
             "/srv/test-data"); by vm_compute.
  - destruct (proj1 (storage_root_resolution _ _ _ readEnv_defaults eq_refl) I)
      as [H1 H2].
    split; [symmetry; exact H1|exact H2].
Defined.

(** The start-up of the tests: the password is [testpass], no warning. *)
Lemma weak_password_warning_witness :
  exists env,
    readEnv (penv Fixture.testHost) (cwd Fixture.testHost) = inr env
    /\ (console_warn weakPasswordWarning
          ∈ [console_log (startedLine Fixture.testEnv 2346)]
        <-> PASSWORD env = "admin" \/ PASSWORD env = "change-me")
    /\ (forall w, console_warn w ∈ [console_log (startedLine Fixture.testEnv 2346)]
                  -> w = weakPasswordWarning).
Proof.
  apply (weak_password_warning Fixture.testHost). by vm_compute.
Defined.

(** * Further properties of the code *)

(** ** [setCorsHeaders] *)

Lemma lower_corsHeaderNames :
  JsString.toLowerCase <$> corsHeaderNames
  = ["access-control-allow-origin"; "vary"; "access-control-allow-credentials";
     "x-content-type-options"; "referrer-policy"; "access-control-allow-methods";
     "access-control-allow-headers"; "access-control-expose-headers"].
Proof. reflexivity. Qed.

(** X1: [setCorsHeaders] changes nothing but its eight headers: the status,
    the body and the open/finished state of the response stay, and so does
    every header under another name (names compared without regard to
    case). *)
Theorem setCorsHeaders_frame (req : IncomingMessage) (res : ServerResponse) :
  statusCode (setCorsHeaders req res) = statusCode res
  /\ body (setCorsHeaders req res) = body res
  /\ finished (setCorsHeaders req res) = finished res
  /\ forall name,
       JsString.toLowerCase name ∉ (JsString.toLowerCase <$> corsHeaderNames) ->
       Response.getHeader name (setCorsHeaders req res) = Response.getHeader name res.
Proof.
  repeat split. intros name Hn. rewrite lower_corsHeaderNames in Hn.
  cbv [setCorsHeaders]. rewrite !getHeader_setHeader.
  repeat (case_decide as E;
          [exfalso; apply Hn; rewrite <- E; cbn;
           rewrite !elem_of_cons; tauto|clear E]).
  reflexivity.
Qed.

(** X2: what [setCorsHeaders] wrote for one request is replaced in full when
    it runs again for another: the response is as if only the second call had
    been made. With the same request twice, the second call changes nothing. *)
Theorem setCorsHeaders_overrides (req1 req2 : IncomingMessage) (res : ServerResponse) :
  setCorsHeaders req2 (setCorsHeaders req1 res) = setCorsHeaders req2 res.
Proof.
  destruct res as [code hdrs content fin].
  cbv [setCorsHeaders Response.setHeader statusCode outHeaders body finished].
  f_equal. apply map_eq. intros k.
  rewrite !lookup_insert. repeat (case_decide; [reflexivity|]). reflexivity.
Qed.

(** X3: the Access-Control-Allow-Origin that [setCorsHeaders] writes is never
    empty; it is the wildcard exactly when the request has no Origin header,
    an empty one, or one that is itself the wildcard, and otherwise it is the
    Origin header as sent. *)
Theorem allow_origin_value (req : IncomingMessage) (res : ServerResponse) :
  exists value,
    Response.getHeader "Access-Control-Allow-Origin" (setCorsHeaders req res)
    = Some value
    /\ value <> EmptyString
    /\ (value = "*"
        <-> headers req !! "origin" = None
            \/ headers req !! "origin" = Some EmptyString
            \/ headers req !! "origin" = Some "*")
    /\ (forall origin, headers req !! "origin" = Some origin ->
                       origin <> EmptyString -> value = origin).
Proof.
  exists (allowOrigin req). split.
  { cbv [setCorsHeaders]. rewrite !getHeader_setHeader. reflexivity. }
  rewrite allowOrigin_spec.
  destruct (headers req !! "origin") as [origin|] eqn:E.
  - case_decide as Ho.
    + subst origin. split; [done|]. split; [|by intros o [= <-]].
      split; [intros _; by right; left|done].
    + split; [done|]. split; [|by intros o [= <-]].
      split; [intros ->; by right; right|].
      intros [?|[[= ?]|[= ?]]]; done.
  - split; [done|]. split; [|done]. split; [by left|done].
Qed.

(** ** The request listener *)

Section Listener.

Context {S : Type}.

(** X4: a request that is neither a preflight nor the health check reaches
    the engine unchanged, together with a response that is still open, has
    status 200 and no body, and holds the eight headers of [setCorsHeaders]
    and no other; the listener returns whatever the engine returns. *)
Theorem engine_handoff (engine : Engine S) (req : IncomingMessage) (st : S) :
  method req <> "OPTIONS" ->
  url req <> "/health" ->
  exists res,
    serve engine req st = engine req res st
    /\ statusCode res = 200
    /\ body res = EmptyString
    /\ finished res = false
    /\ outHeaders res
       = list_to_map
           (prod_map JsString.toLowerCase id
              <$> (responseHeaders req ++ preflightHeaders)).
Proof.
  intros Hm Hu. exists (setCorsHeaders req Response.fresh).
  unfold serve, requestListener.
  rewrite (decide_False _ _ Hm), (decide_False _ _ Hu).
  repeat split.
  apply map_eq. intros k.
  cbv [setCorsHeaders Response.setHeader Response.fresh outHeaders
       responseHeaders preflightHeaders].
  rewrite allowOrigin_spec.
  cbn [app fmap list_fmap prod_map fst snd id list_to_map foldr].
  rewrite !lookup_insert.
  repeat match goal with
         | |- context [JsString.toLowerCase ?s] =>
             let v := eval vm_compute in (JsString.toLowerCase s) in
             change (JsString.toLowerCase s) with v
         end.
  repeat (case_decide as E; [subst k; by vm_compute|clear E]).
  reflexivity.
Qed.

(** X5: the answers the listener gives itself, to a preflight and to the
    health check, depend on the method, the URL and the Origin header of the
    request and on nothing else: two requests that agree on these get the
    same response, whatever their other headers (credentials included) and
    payloads, whatever the engines and their states. *)
Theorem own_answers_ignore_the_rest (engine engine' : Engine S)
    (req req' : IncomingMessage) (st st' : S) :
  method req = method req' ->
  url req = url req' ->
  headers req !! "origin" = headers req' !! "origin" ->
  method req = "OPTIONS" \/ url req = "/health" ->
  (serve engine req st).1 = (serve engine' req' st').1
  /\ (serve engine req st).2 = st
  /\ (serve engine' req' st').2 = st'.
Proof.
  intros Hm Hu Ho Hown.
  assert (Hcors : forall res, setCorsHeaders req res = setCorsHeaders req' res).
  { intros res. cbv [setCorsHeaders allowOrigin]. by rewrite Ho. }
  unfold serve, requestListener. rewrite <- Hm, <- Hu, <- Hcors.
  destruct (decide (method req = "OPTIONS")); [done|].
  destruct (decide (url req = "/health")); [done|].
  by destruct Hown.
Qed.

End Listener.

(** PROPFIND / without credentials, on its way to the engine. *)
Lemma engine_handoff_witness :
  exists res,
    httpServer Fixture.testHost Fixture.testEnv
      (Fixture.makeRequest "PROPFIND" "/" None) Fixture.emptyStore
    = wServer Fixture.testHost Fixture.testEnv
        (Fixture.makeRequest "PROPFIND" "/" None) res Fixture.emptyStore
    /\ statusCode res = 200
    /\ body res = EmptyString
    /\ finished res = false
    /\ outHeaders res
       = list_to_map
           (prod_map JsString.toLowerCase id
              <$> (responseHeaders (Fixture.makeRequest "PROPFIND" "/" None)
                   ++ preflightHeaders)).
Proof.
  apply (engine_handoff (wServer Fixture.testHost Fixture.testEnv)
           (Fixture.makeRequest "PROPFIND" "/" None) Fixture.emptyStore);
    discriminate.
Defined.

(** A preflight with credentials and one without get the same answer. *)
Lemma own_answers_ignore_the_rest_witness :
  (httpServer Fixture.testHost Fixture.testEnv
     (Fixture.makeRequest "OPTIONS" "/sp-sync" (Some Fixture.validAuth))
     Fixture.emptyStore).1
  = (httpServer Fixture.testHost Fixture.testEnv
       (Fixture.makeRequest "OPTIONS" "/sp-sync" None) Fixture.emptyStore).1.
Proof.
  refine (proj1 (own_answers_ignore_the_rest
                   (wServer Fixture.testHost Fixture.testEnv)
                   (wServer Fixture.testHost Fixture.testEnv)
                   (Fixture.makeRequest "OPTIONS" "/sp-sync" (Some Fixture.validAuth))
                   (Fixture.makeRequest "OPTIONS" "/sp-sync" None)
                   Fixture.emptyStore Fixture.emptyStore _ _ _ _));
    [reflexivity|reflexivity|reflexivity|by left].
Defined.

(** ** [trim] *)

Lemma string_append_cons (c : ascii) (s t : string) :
  String c s +:+ t = String c (s +:+ t).
Proof. reflexivity. Qed.

Lemma string_append_nil_r (s : string) : s +:+ EmptyString = s.
Proof. induction s as [|c s IH]; [done|]. by rewrite string_append_cons, IH. Qed.

Lemma string_append_assoc (s1 s2 s3 : string) : (s1 +:+ s2) +:+ s3 = s1 +:+ s2 +:+ s3.
Proof. induction s1 as [|c s1 IH]; [done|]. by rewrite !string_append_cons, IH. Qed.

Lemma rev_app_rev_app (s a b : string) :
  String.rev_app (String.rev_app s a) b = String.rev_app a (s +:+ b).
Proof.
  revert a b. induction s as [|c s IH]; intros a b; [done|].
  cbn. by rewrite IH, string_append_cons.
Qed.

Lemma string_rev_involutive (s : string) : String.rev (String.rev s) = s.
Proof. unfold String.rev. rewrite rev_app_rev_app. apply string_append_nil_r. Qed.

Lemma rev_app_append (s a : string) : String.rev_app s a = String.rev s +:+ a.
Proof.
  unfold String.rev. revert a. induction s as [|c s IH]; intros a; [done|].
  cbn. rewrite IH, (IH (String c EmptyString)). by rewrite string_append_assoc.
Qed.

Lemma rev_app_of_append (s t a : string) :
  String.rev_app (s +:+ t) a = String.rev_app t (String.rev_app s a).
Proof.
  revert a. induction s as [|c s IH]; intros a; [done|].
  rewrite string_append_cons. cbn. apply IH.
Qed.

Lemma rev_append (s t : string) :
  String.rev (s +:+ t) = String.rev t +:+ String.rev s.
Proof.
  unfold String.rev at 1. rewrite rev_app_of_append. apply rev_app_append.
Qed.

Lemma trimStart_startsClean (s : string) : startsClean (JsString.trimStart s).
Proof.
  induction s as [|c s IH]; [done|]. cbn.
  by destruct (JsString.isWhiteSpace c) eqn:E.
Qed.

Lemma startsClean_trimStart (s : string) : startsClean s -> JsString.trimStart s = s.
Proof. destruct s as [|c s]; [done|]. cbn. by intros ->. Qed.

(** Before a character that [trim] keeps, [trimStart] leaves that character
    in last place. *)
Lemma trimStart_snoc (u : string) (c : ascii) :
  JsString.isWhiteSpace c = false ->
  exists w, JsString.trimStart (u +:+ String c EmptyString) = w +:+ String c EmptyString.
Proof.
  intros Hc. induction u as [|a u [w IH]].
  - exists EmptyString. change (EmptyString +:+ String c EmptyString)
      with (String c EmptyString). cbn. by rewrite Hc.
  - rewrite string_append_cons. cbn [JsString.trimStart].
    destruct (JsString.isWhiteSpace a).
    + by exists w.
    + by exists (String a u).
Qed.

Lemma trimEnd_startsClean (s : string) : startsClean s -> startsClean (JsString.trimEnd s).
Proof.
  destruct s as [|c s]; [done|]. intros Hc.
  unfold JsString.trimEnd.
  replace (String.rev (String c s)) with (String.rev s +:+ String c EmptyString)
    by (symmetry; apply (rev_app_append s (String c EmptyString))).
  destruct (trimStart_snoc (String.rev s) c Hc) as [w ->].
  rewrite rev_append. exact Hc.
Qed.

Lemma trimEnd_idempotent (s : string) :
  JsString.trimEnd (JsString.trimEnd s) = JsString.trimEnd s.
Proof.
  unfold JsString.trimEnd. rewrite string_rev_involutive.
  by rewrite (startsClean_trimStart _ (trimStart_startsClean _)).
Qed.

(** Trimming what is trimmed changes nothing. *)
Lemma trim_idempotent (s : string) : JsString.trim (JsString.trim s) = JsString.trim s.
Proof.
  unfold JsString.trim.
  rewrite (startsClean_trimStart (JsString.trimEnd _));
    [apply trimEnd_idempotent|].
  apply trimEnd_startsClean, trimStart_startsClean.
Qed.

(** ** [readEnv] *)

Lemma orElse_trimmed penv name d :
  JsString.trim d = d ->
  JsString.trim (orElse (envTrim penv name) d) = orElse (envTrim penv name) d.
Proof.
  intros Hd. unfold orElse, envTrim. destruct (penv !! name) as [v|]; [|done].
  simpl. destruct (JsString.truthy _); [apply trim_idempotent|done].
Qed.

(** X6: the host, user name, password and realm that [readEnv] returns have
    no white space at either end: trimming them changes nothing. The same
    holds for the data directory when DATA_DIR is set to more than white
    space; a variable set to such a value comes back as that value
    trimmed. *)
Theorem readEnv_values_trimmed (penv : gmap string string) (cwd : string) (env : Env) :
  readEnv penv cwd = inr env ->
  Forall (fun value => JsString.trim value = value)
    [HOST env; USERNAME env; PASSWORD env; REALM env]
  /\ (¬ blank (penv !! "DATA_DIR") -> JsString.trim (DATA_DIR env) = DATA_DIR env)
  /\ (forall v, penv !! "PASSWORD" = Some v -> JsString.trim v <> EmptyString ->
                PASSWORD env = JsString.trim v).
Proof.
  intros ->%readEnv_inr. simpl. split; [|split].
  - repeat constructor; by apply orElse_trimmed.
  - unfold blank, orElse, envTrim.
    destruct (penv !! "DATA_DIR") as [v|]; simpl; [|done].
    destruct (JsString.truthy (JsString.trim v)) eqn:E;
      [intros _; apply trim_idempotent|].
    by destruct (JsString.trim v).
  - intros v Hv Ht. by apply orElse_set.
Qed.

Lemma readEnv_spaced_password :
  readEnv {[ "PASSWORD" := "  s3cret pass " ]} "/srv"
  = inr {| HOST := "0.0.0.0"; PORT := JsNumber.ofZ 2345; DATA_DIR := "/srv/data";
           USERNAME := "admin"; PASSWORD := "s3cret pass";
           REALM := "Super Productivity Sync" |}.
Proof. by vm_compute. Qed.

(** PASSWORD with blanks around it: the password is the text between. *)
Lemma readEnv_values_trimmed_witness :
  JsString.trim "s3cret pass" = "s3cret pass"
  /\ "s3cret pass" = JsString.trim "  s3cret pass ".
Proof.
  destruct (readEnv_values_trimmed _ _ _ readEnv_spaced_password) as (H & _ & Hset).
  split.
  - by apply Forall_cons in H as [_ [_ [H _]%Forall_cons]%Forall_cons].
  - apply (Hset "  s3cret pass "); [reflexivity|discriminate].
Defined.

Lemma binary_round_aux_notPositive m e l :
  notPositive (binary_round_aux JsNumber.prec JsNumber.emax true m e l).
Proof.
  unfold binary_round_aux.
  destruct (shr_fexp _ _ m e l) as [mrs e1].
  destruct (shr_fexp _ _ _ e1 loc_Exact) as [mrs' e2].
  destruct (shr_m mrs'); simpl; [done| |done].
  by destruct (e2 <=? _).
Qed.

Lemma roundDecimal_notPositive n k : notPositive (JsNumber.roundDecimal true n k).
Proof.
  unfold JsNumber.roundDecimal. destruct n as [|p|p]; [done| |done].
  destruct (0 <=? k).
  - unfold binary_round. destruct (shl_align _ _ _) as [mz ez].
    apply binary_round_aux_notPositive.
  - unfold SFdiv. destruct (SFdiv_core_binary _ _ _ _ _ _) as [[mz ez] lz].
    apply binary_round_aux_notPositive.
Qed.

Lemma parseUnsignedDecimal_notPositive s :
  notPositive (JsNumber.parseUnsignedDecimal true s).
Proof.
  unfold JsNumber.parseUnsignedDecimal.
  destruct (String.eqb s "Infinity"); [done|].
  destruct (JsNumber.spanDigits JsNumber.decDigit s) as [ip r1].
  destruct (match r1 with
            | String "." r => JsNumber.spanDigits JsNumber.decDigit r
            | _ => ([], r1)
            end) as [fp r2].
  destruct (ip ++ fp); [done|].
  destruct (JsNumber.parseExponent r2); [|done].
  apply roundDecimal_notPositive.
Qed.

Lemma notPositive_refused x :
  notPositive x ->
  negb (JsNumber.isFinite x)
  || JsNumber.le x (JsNumber.ofZ 0)
  || JsNumber.gt x (JsNumber.ofZ 65535) = true.
Proof. destruct x as [s|s| |s m e]; simpl; try done; by intros ->. Qed.

(** X8: a PORT whose value, white space aside, begins with a minus sign is
    refused with [Invalid PORT], whatever follows the sign. *)
Theorem negative_port_rejected (penv : gmap string string) (cwd v rest : string) :
  penv !! "PORT" = Some v ->
  JsString.trim v = String "-" rest ->
  readEnv penv cwd = inl (InvalidPort (JsString.trim v)).
Proof.
  intros Hport Hv.
  assert (Hraw : orElse (envTrim penv "PORT") "2345" = JsString.trim v).
  { apply orElse_set; [done|]. by rewrite Hv. }
  pose proof (readEnv_port_check penv cwd) as Hcheck. cbv zeta in Hcheck.
  rewrite Hraw in Hcheck.
  assert (Hn : JsNumber.ofString (JsString.trim v)
               = JsNumber.parseUnsignedDecimal true rest).
  { unfold JsNumber.ofString. by rewrite trim_idempotent, Hv. }
  rewrite Hn in Hcheck.
  by rewrite (notPositive_refused _ (parseUnsignedDecimal_notPositive rest)) in Hcheck.
Qed.

Lemma negative_port_rejected_witness :
  readEnv {[ "PORT" := " -80 " ]} "/srv" = inl (InvalidPort "-80").
Proof.
  apply (negative_port_rejected {[ "PORT" := " -80 " ]} "/srv" " -80 " "80");
    reflexivity.
Defined.

(** ** Decimal numerals as PORT *)

Lemma spanDigits_uint d :
  JsNumber.spanDigits JsNumber.decDigit (NilEmpty.string_of_uint d)
  = (uintDigits d, EmptyString).
Proof.
  induction d; [done|..];
    cbn [NilEmpty.string_of_uint JsNumber.spanDigits uintDigits];
    rewrite IHd; reflexivity.
Qed.

Lemma fold_uint_acc d acc :
  fold_left (fun a x => a * 10 + x) (uintDigits d) (Zpos acc)
  = Zpos (Pos.of_uint_acc d acc).
Proof.
  revert acc. induction d; intros acc; [done|..];
    cbn [uintDigits fold_left Pos.of_uint_acc]; rewrite <- IHd; f_equal; lia.
Qed.

Lemma digitsValue_uint d :
  JsNumber.digitsValue 10 (uintDigits d) = Z.of_N (Pos.of_uint d).
Proof.
  unfold JsNumber.digitsValue.
  induction d; [done|..]; cbn [uintDigits fold_left Pos.of_uint];
    [exact IHd|..]; apply fold_uint_acc.
Qed.

Lemma unspaced_uint d : unspaced (NilEmpty.string_of_uint d) = true.
Proof. induction d; [done|..]; exact IHd. Qed.

Lemma unspaced_rev_app s a :
  unspaced s = true -> unspaced a = true -> unspaced (String.rev_app s a) = true.
Proof.
  revert a. induction s as [|c s IH]; intros a Hs Ha; [done|].
  cbn in Hs. apply andb_prop in Hs as [Hc Hs]. cbn. apply IH; [done|].
  cbn. by rewrite Hc.
Qed.

Lemma unspaced_startsClean s : unspaced s = true -> startsClean s.
Proof.
  destruct s as [|c s]; [done|]. cbn. intros [Hc _]%andb_prop.
  by apply negb_true_iff.
Qed.

Lemma trim_unspaced s : unspaced s = true -> JsString.trim s = s.
Proof.
  intros Hs. unfold JsString.trim, JsString.trimEnd.
  rewrite (startsClean_trimStart s (unspaced_startsClean s Hs)).
  rewrite startsClean_trimStart; [apply string_rev_involutive|].
  by apply unspaced_startsClean, unspaced_rev_app.
Qed.

Lemma ofString_uint d :
  d <> Decimal.Nil ->
  JsNumber.ofString (NilEmpty.string_of_uint d)
  = JsNumber.roundDecimal false (Z.of_N (Pos.of_uint d)) 0.
Proof.
  intros Hd. rewrite <- digitsValue_uint.
  unfold JsNumber.ofString. rewrite (trim_unspaced _ (unspaced_uint d)).
  assert (Hp : JsNumber.parseUnsignedDecimal false (NilEmpty.string_of_uint d)
               = JsNumber.roundDecimal false (JsNumber.digitsValue 10 (uintDigits d)) 0).
  { unfold JsNumber.parseUnsignedDecimal.
    assert (He : String.eqb (NilEmpty.string_of_uint d) "Infinity" = false)
      by (by destruct d).
    rewrite He, spanDigits_uint, app_nil_r.
    destruct (uintDigits d) eqn:E; [by destruct d|]. reflexivity. }
  destruct d as [|d|d|d|d|d|d|d|d|d|d]; try done.
  destruct d; exact Hp.
Qed.

Lemma digits2_bounds p :
  2 ^ (Zpos (digits2_pos p) - 1) <= Zpos p < 2 ^ Zpos (digits2_pos p).
Proof.
  induction p as [p IH|p IH|]; cbn [digits2_pos]; [| |done].
  all: rewrite Pos2Z.inj_succ.
  all: replace (Z.succ (Zpos (digits2_pos p)) - 1)
         with (Z.succ (Zpos (digits2_pos p) - 1)) by lia.
  all: rewrite !Z.pow_succ_r by lia.
  all: set (lo := 2 ^ (Zpos (digits2_pos p) - 1)) in *.
  all: set (hi := 2 ^ Zpos (digits2_pos p)) in *.
  all: lia.
Qed.

Lemma digits2_iter_xO p k :
  digits2_pos (Pos.iter xO p k) = (digits2_pos p + k)%positive.
Proof.
  induction k as [|k IH] using Pos.peano_ind.
  - cbn. by rewrite Pos.add_1_r.
  - rewrite Pos.iter_succ. cbn [digits2_pos]. rewrite IH. by rewrite Pos.add_succ_r.
Qed.

Lemma iter_xO_mul p k : Zpos (Pos.iter xO p k) = Zpos p * 2 ^ Zpos k.
Proof.
  induction k as [|k IH] using Pos.peano_ind.
  - cbn. lia.
  - rewrite Pos.iter_succ, Pos2Z.inj_xO, IH, Pos2Z.inj_succ, Z.pow_succ_r by lia. lia.
Qed.

Lemma fexp_above e : -1021 <= e -> fexp JsNumber.prec JsNumber.emax e = e - 53.
Proof. intros He. unfold fexp, emin, JsNumber.prec, JsNumber.emax. lia. Qed.

(** An integer of fewer than 53 bits is a number as it stands. *)
Lemma binary_round_exact sx p k :
  Zpos (digits2_pos p) + Zpos k = 53 ->
  binary_round JsNumber.prec JsNumber.emax sx p 0
  = S754_finite sx (Pos.iter xO p k) (Zneg k).
Proof.
  intros Hk. unfold binary_round.
  assert (Hf : fexp JsNumber.prec JsNumber.emax (Zpos (digits2_pos p) + 0) = Zneg k).
  { rewrite fexp_above by lia. lia. }
  rewrite Hf. unfold shl_align. rewrite Z.sub_0_r. cbv beta iota zeta.
  unfold binary_round_aux, shr_fexp.
  cbn [Zdigits2 shr_record_of_loc].
  rewrite digits2_iter_xO.
  assert (Hf' : fexp JsNumber.prec JsNumber.emax (Zpos (digits2_pos p + k) + Zneg k) = Zneg k).
  { rewrite fexp_above by lia. lia. }
  rewrite Hf', Z.sub_diag. cbn [shr shr_m loc_of_shr_record round_nearest_even].
  cbn [Zdigits2 shr_record_of_loc]. rewrite digits2_iter_xO, Hf', Z.sub_diag.
  cbn [shr shr_m]. reflexivity.
Qed.

Lemma toInteger_exact sx p k :
  JsNumber.toInteger (S754_finite sx (Pos.iter xO p k) (Zneg k))
  = Some (if sx then Zneg p else Zpos p).
Proof.
  unfold JsNumber.toInteger. cbn [Z.leb Z.compare Z.opp].
  change (Zneg (Pos.iter xO p k)) with (- Zpos (Pos.iter xO p k)).
  rewrite !iter_xO_mul, Z.mod_mul by lia. cbn [Z.eqb].
  f_equal. destruct sx.
  - rewrite <- Z.mul_opp_l, Z.div_mul by lia. done.
  - rewrite Z.div_mul by lia. done.
Qed.

Lemma digits2_le_16 p : Zpos (digits2_pos p) <= 16 <-> Zpos p <= 65535.
Proof.
  pose proof (digits2_bounds p) as [Hlo Hhi]. split; intros H.
  - assert (2 ^ Zpos (digits2_pos p) <= 2 ^ 16) by (apply Z.pow_le_mono_r; lia).
    change (2 ^ 16) with 65536 in *. lia.
  - destruct (Z.le_gt_cases (Zpos (digits2_pos p)) 16) as [|Hgt]; [done|].
    assert (2 ^ 16 <= 2 ^ (Zpos (digits2_pos p) - 1)) by (apply Z.pow_le_mono_r; lia).
    change (2 ^ 16) with 65536 in *. lia.
Qed.

(** The three tests of [readEnv] on a positive integer below 2^52. *)
Lemma port_tests_exact p k :
  Zpos (digits2_pos p) + Zpos k = 53 ->
  negb (JsNumber.isFinite (S754_finite false (Pos.iter xO p k) (Zneg k)))
  || JsNumber.le (S754_finite false (Pos.iter xO p k) (Zneg k)) (JsNumber.ofZ 0)
  || JsNumber.gt (S754_finite false (Pos.iter xO p k) (Zneg k)) (JsNumber.ofZ 65535)
  = negb (Zpos p <=? 65535).
Proof.
  intros Hk.
  change (JsNumber.ofZ 0) with (S754_zero false).
  change (JsNumber.ofZ 65535) with (S754_finite false 9007061815787520 (-37)).
  cbn [JsNumber.isFinite negb orb JsNumber.le JsNumber.gt SFleb SFltb SFcompare].
  destruct (Z.compare_spec (-37) (Zneg k)) as [E|E|E].
  - injection E as <-. rewrite Pos.compare_cont_spec. cbn [Pos.switch_Eq].
    assert (Hm : Zpos (Pos.iter xO p 37) = Zpos p * 2 ^ 37) by apply iter_xO_mul.
    assert (Hp : Zpos p <= 65535) by (apply digits2_le_16; lia).
    rewrite (proj2 (Z.leb_le _ _) Hp). cbn [negb].
    destruct (Pos.compare_spec 9007061815787520 (Pos.iter xO p 37)) as [E|E|E];
      [done| |done].
    exfalso. apply Pos2Z.pos_lt_pos in E. rewrite Hm in E.
    change (2 ^ 37) with 137438953472 in E. lia.
  - assert (Hp : ¬ Zpos p <= 65535) by (rewrite <- digits2_le_16; lia).
    by rewrite (proj2 (Z.leb_nle _ _) Hp).
  - assert (Hp : Zpos p <= 65535) by (apply digits2_le_16; lia).
    by rewrite (proj2 (Z.leb_le _ _) Hp).
Qed.

Lemma to_uint_not_nil p : Pos.to_uint p <> Decimal.Nil.
Proof.
  intros E. pose proof (DecimalPos.Unsigned.of_to p) as H. by rewrite E in H.
Qed.

Lemma string_of_uint_not_nil d :
  d <> Decimal.Nil -> NilZero.string_of_uint d = NilEmpty.string_of_uint d.
Proof. by destruct d. Qed.

Lemma decimal_pos p : decimal (Zpos p) = NilEmpty.string_of_uint (Pos.to_uint p).
Proof. apply string_of_uint_not_nil, to_uint_not_nil. Qed.

Lemma decimal_neg p :
  decimal (Zneg p) = String "-" (NilEmpty.string_of_uint (Pos.to_uint p)).
Proof.
  unfold decimal. cbn [Z.to_int NilZero.string_of_int].
  by rewrite (string_of_uint_not_nil _ (to_uint_not_nil p)).
Qed.

Lemma decimal_unspaced n : unspaced (decimal n) = true.
Proof.
  destruct n as [|p|p]; [done|..].
  - rewrite decimal_pos. apply unspaced_uint.
  - rewrite decimal_neg. apply (unspaced_uint (Pos.to_uint p)).
Qed.

Lemma decimal_not_empty n : JsString.trim (decimal n) <> EmptyString.
Proof.
  rewrite (trim_unspaced _ (decimal_unspaced n)).
  destruct n as [|p|p]; [done|..].
  - rewrite decimal_pos. pose proof (to_uint_not_nil p). by destruct (Pos.to_uint p).
  - by rewrite decimal_neg.
Qed.

(** The number [readEnv] reads from the decimal numeral of a positive
    integer below 2^52: the integer itself, held exactly. *)
Lemma ofString_decimal_pos p :
  Zpos p < 2 ^ 52 ->
  exists k,
    Zpos (digits2_pos p) + Zpos k = 53
    /\ JsNumber.ofString (decimal (Zpos p))
       = S754_finite false (Pos.iter xO p k) (Zneg k).
Proof.
  intros Hp.
  assert (Hd : Zpos (digits2_pos p) <= 52).
  { pose proof (digits2_bounds p) as [Hlo _].
    destruct (Z.le_gt_cases (Zpos (digits2_pos p)) 52) as [|Hgt]; [done|].
    assert (2 ^ 52 <= 2 ^ (Zpos (digits2_pos p) - 1)) by (apply Z.pow_le_mono_r; lia).
    lia. }
  exists (Z.to_pos (53 - Zpos (digits2_pos p))).
  assert (Hk : Zpos (digits2_pos p) + Zpos (Z.to_pos (53 - Zpos (digits2_pos p))) = 53)
    by lia.
  split; [exact Hk|].
  rewrite decimal_pos, (ofString_uint _ (to_uint_not_nil p)).
  rewrite DecimalPos.Unsigned.of_to.
  unfold JsNumber.roundDecimal. cbn [Z.of_N Z.leb Z.compare Z.pow Z.to_pos].
  change (Z.to_pos (10 ^ 0)) with 1%positive. rewrite Pos.mul_1_r.
  by apply binary_round_exact.
Qed.

(** X7: for an integer [n] below 2^52, PORT set to the decimal numeral of
    [n] is taken by [readEnv] exactly when [n] is between 1 and 65535, and
    then the port returned is [n]; for 0, for a negative [n] and for [n]
    above 65535 [readEnv] throws [Invalid PORT] with the numeral. *)
Theorem decimal_port (penv : gmap string string) (cwd : string) (n : Z) :
  n < 2 ^ 52 ->
  penv !! "PORT" = Some (decimal n) ->
  (1 <= n <= 65535 ->
   exists env, readEnv penv cwd = inr env /\ JsNumber.toInteger (PORT env) = Some n)
  /\ (n <= 0 \/ 65535 < n -> readEnv penv cwd = inl (InvalidPort (decimal n))).
Proof.
  intros Hn Hport.
  assert (Hraw : orElse (envTrim penv "PORT") "2345" = decimal n).
  { rewrite (orElse_set penv "PORT" _ _ Hport (decimal_not_empty n)).
    apply trim_unspaced, decimal_unspaced. }
  pose proof (readEnv_port_check penv cwd) as Hcheck. cbv zeta in Hcheck.
  rewrite Hraw in Hcheck.
  destruct n as [|p|p].
  - split; [lia|]. intros _. exact Hcheck.
  - destruct (ofString_decimal_pos p Hn) as (k & Hk & Hnum).
    rewrite Hnum, (port_tests_exact p k Hk) in Hcheck.
    split.
    + intros [_ Hle]. rewrite (proj2 (Z.leb_le _ _) Hle) in Hcheck.
      destruct Hcheck as (env & Henv & Hp). exists env. split; [done|].
      rewrite Hp. apply (toInteger_exact false).
    + intros [Hle|Hgt]; [lia|].
      assert (Hnle : ¬ Zpos p <= 65535) by lia.
      by rewrite (proj2 (Z.leb_nle _ _) Hnle) in Hcheck.
  - split; [lia|]. intros _.
    assert (Hnum : JsNumber.ofString (decimal (Zneg p))
                   = JsNumber.parseUnsignedDecimal true
                       (NilEmpty.string_of_uint (Pos.to_uint p))).
    { unfold JsNumber.ofString.
      rewrite (trim_unspaced _ (decimal_unspaced (Zneg p))), decimal_neg. done. }
    rewrite Hnum in Hcheck.
    by rewrite (notPositive_refused _ (parseUnsignedDecimal_notPositive _)) in Hcheck.
Qed.

(** PORT=8080 and PORT=70000. *)
Lemma decimal_port_witness :
  (exists env,
      readEnv {[ "PORT" := "8080" ]} "/srv" = inr env
      /\ JsNumber.toInteger (PORT env) = Some 8080)
  /\ readEnv {[ "PORT" := "70000" ]} "/srv" = inl (InvalidPort "70000").
Proof.
  split.
  - refine (proj1 (decimal_port {[ "PORT" := "8080" ]} "/srv" 8080 _ _) _);
      [done|reflexivity|lia].
  - refine (proj2 (decimal_port {[ "PORT" := "70000" ]} "/srv" 70000 _ _) _);
      [done|reflexivity|lia].
Defined.




(** ** The default data directory *)

Lemma splitGo_append sep cur a b :
  JsString.splitGo sep cur (a +:+ String sep b)
  = JsString.splitGo sep cur a ++ JsString.splitGo sep EmptyString b.
Proof.
  revert cur. induction a as [|c a IH]; intros cur.
  - change (EmptyString +:+ String sep b) with (String sep b).
    cbn [JsString.splitGo]. by rewrite Ascii.eqb_refl.
  - rewrite string_append_cons. cbn [JsString.splitGo].
    destruct (Ascii.eqb c sep); by rewrite IH.
Qed.

Lemma normalizeSegments_append above stack l1 l2 :
  Path.normalizeSegments above stack (l1 ++ l2)
  = Path.normalizeSegments above (rev (Path.normalizeSegments above stack l1)) l2.
Proof.
  revert stack. induction l1 as [|s l1 IH]; intros stack.
  - cbn. by rewrite List.rev_involutive.
  - cbn [app Path.normalizeSegments].
    repeat (case_decide || destruct stack as [|top stack] || destruct above);
      apply IH.
Qed.

(** The default data directory: the working directory, normalized, and
    then [data]. *)
Lemma resolve_data_segments cwd :
  Path.isAbsolute cwd = true ->
  Path.resolve cwd [cwd; "data"]
  = "/" +:+ JsString.join "/"
              (Path.normalizeSegments false [] (JsString.split "/" cwd) ++ ["data"]).
Proof.
  intros Hcwd. rewrite (resolve_data cwd Hcwd). f_equal.
  unfold Path.normalizeString, JsString.split. f_equal.
  change (cwd +:+ "/" +:+ "data" +:+ "/" +:+ EmptyString)
    with (cwd +:+ String "/" "data/").
  rewrite (splitGo_append "/" EmptyString cwd).
  rewrite normalizeSegments_append.
  change (JsString.splitGo "/" EmptyString "data/") with ["data"; EmptyString].
  cbn [Path.normalizeSegments].
  rewrite (decide_False (P := "data" = EmptyString \/ "data" = ".")) by (by intros [|]).
  rewrite (decide_False (P := "data" = "..")) by done.
  rewrite (decide_True (P := EmptyString = EmptyString \/ EmptyString = ".")) by (by left).
  cbn [rev]. by rewrite List.rev_involutive.
Qed.

(** X10: with DATA_DIR unset, empty or blank, the data directory that
    [readEnv] returns is the working directory with its empty, [.] and [..]
    segments resolved, followed by the segment [data]. *)
Theorem default_data_dir (penv : gmap string string) (cwd : string) (env : Env) :
  readEnv penv cwd = inr env ->
  blank (penv !! "DATA_DIR") ->
  Path.isAbsolute cwd = true ->
  DATA_DIR env
  = "/" +:+ JsString.join "/"
              (Path.normalizeSegments false [] (JsString.split "/" cwd) ++ ["data"]).
Proof.
  intros ->%readEnv_inr Hb Hcwd. simpl.
  rewrite (orElse_blank _ _ _ Hb). by apply resolve_data_segments.
Qed.

Lemma readEnv_in_app :
  readEnv ∅ "/srv//app/./releases/.."
  = inr {| HOST := "0.0.0.0"; PORT := JsNumber.ofZ 2345; DATA_DIR := "/srv/app/data";
           USERNAME := "admin"; PASSWORD := "admin";
           REALM := "Super Productivity Sync" |}.
Proof. by vm_compute. Qed.

(** A working directory written with a doubled slash, [.] and [..]. *)
Lemma default_data_dir_witness :
  "/srv/app/data"
  = "/" +:+ JsString.join "/"
              (Path.normalizeSegments false []
                 (JsString.split "/" "/srv//app/./releases/..") ++ ["data"]).
Proof.
  exact (default_data_dir _ _ _ readEnv_in_app I eq_refl).
Defined.

(** ** [start] *)

Lemma toInteger_positive x p :
  JsNumber.toInteger x = Some p ->
  JsNumber.le x (JsNumber.ofZ 0) = false ->
  0 < p.
Proof.
  change (JsNumber.ofZ 0) with (S754_zero false).
  destruct x as [s|s| |[|] m e]; try done.
  unfold JsNumber.toInteger. intros Hp _.
  destruct (0 <=? e) eqn:He.
  - injection Hp as <-. apply Z.leb_le in He.
    apply Z.mul_pos_pos; [done|]. by apply Z.pow_pos_nonneg.
  - destruct (Zpos m mod 2 ^ (- e) =? 0) eqn:Hm; [|done].
    injection Hp as <-. apply Z.eqb_eq in Hm. apply Z.leb_gt in He.
    assert (H2 : 0 < 2 ^ (- e)) by (apply Z.pow_pos_nonneg; lia).
    assert (H3 : 2 ^ (- e) <> 0) by lia.
    pose proof (Z.div_mod (Zpos m) (2 ^ (- e)) H3) as Hdm.
    rewrite Hm in Hdm. nia.
Qed.

Lemma readEnv_accepts penv cwd env :
  readEnv penv cwd = inr env ->
  JsNumber.isFinite (PORT env) = true
  /\ JsNumber.le (PORT env) (JsNumber.ofZ 0) = false
  /\ JsNumber.gt (PORT env) (JsNumber.ofZ 65535) = false.
Proof.
  intros Henv. pose proof (readEnv_port_check penv cwd) as Hcheck.
  cbv zeta in Hcheck.
  destruct (_ || _) eqn:Hc in Hcheck; [congruence|].
  destruct Hcheck as (env' & Henv' & Hp).
  assert (env' = env) as -> by congruence. rewrite Hp.
  apply orb_false_elim in Hc as [[Hf Hle]%orb_false_elim Hgt].
  by apply negb_false_iff in Hf.
Qed.

(** X11: when [start] succeeds, the port of the configuration is an integer
    between 1 and 65535 and the socket was bound to it on the configured
    host; the data directory existed or was created; and what is printed is
    the summary line for that port, after the password warning if the
    password is weak, and nothing else. *)
Theorem started_server (h : Host) (lines : list Console) :
  start h = inr lines ->
  exists env port,
    readEnv (penv h) (cwd h) = inr env
    /\ JsNumber.toInteger (PORT env) = Some port
    /\ 1 <= port <= 65535
    /\ (existsSync h (DATA_DIR env) = true \/ mkdirSync h (DATA_DIR env) = None)
    /\ bind h port (HOST env) = None
    /\ lines = (if usesWeakPassword env then [console_warn weakPasswordWarning] else [])
               ++ [console_log (startedLine env port)].
Proof.
  unfold start. destruct (readEnv (penv h) (cwd h)) as [e|env] eqn:Henv; [done|].
  destruct (existsSync h (DATA_DIR env)) eqn:Hex.
  - unfold listen.
    destruct (JsNumber.toInteger (PORT env)) as [p|] eqn:Hp; [|done].
    destruct ((0 <=? p) && (p <=? 65535)) eqn:Hr; [|done].
    destruct (bind h p (HOST env)) eqn:Hb; [done|].
    intros [= <-]. exists env, p.
    apply andb_prop in Hr as [H0%Z.leb_le H1%Z.leb_le].
    pose proof (readEnv_accepts _ _ _ Henv) as (_ & Hle & _).
    pose proof (toInteger_positive _ _ Hp Hle).
    repeat split; try done; try lia. by left.
  - destruct (mkdirSync h (DATA_DIR env)) eqn:Hmk; [done|].
    unfold listen.
    destruct (JsNumber.toInteger (PORT env)) as [p|] eqn:Hp; [|done].
    destruct ((0 <=? p) && (p <=? 65535)) eqn:Hr; [|done].
    destruct (bind h p (HOST env)) eqn:Hb; [done|].
    intros [= <-]. exists env, p.
    apply andb_prop in Hr as [H0%Z.leb_le H1%Z.leb_le].
    pose proof (readEnv_accepts _ _ _ Henv) as (_ & Hle & _).
    pose proof (toInteger_positive _ _ Hp Hle).
    repeat split; try done; try lia. by right.
Qed.

Lemma start_testHost :
  start Fixture.testHost = inr [console_log (startedLine Fixture.testEnv 2346)].
Proof. by vm_compute. Qed.

(** The start-up of the tests, on port 2346. *)
Lemma started_server_witness :
  exists env port,
    readEnv (penv Fixture.testHost) (cwd Fixture.testHost) = inr env
    /\ JsNumber.toInteger (PORT env) = Some port
    /\ 1 <= port <= 65535
    /\ (existsSync Fixture.testHost (DATA_DIR env) = true
        \/ mkdirSync Fixture.testHost (DATA_DIR env) = None)
    /\ bind Fixture.testHost port (HOST env) = None
    /\ [console_log (startedLine Fixture.testEnv 2346)]
       = (if usesWeakPassword env then [console_warn weakPasswordWarning] else [])
         ++ [console_log (startedLine env port)].
Proof. exact (started_server _ _ start_testHost). Defined.

(** X12: a port that [readEnv] returns but that is not an integer never
    gives a running server: [start] fails, with [ERR_SOCKET_BAD_PORT] from
    [listen], unless creating the data directory has failed before. *)
Theorem fractional_port_never_listens (h : Host) (env : Env) :
  readEnv (penv h) (cwd h) = inr env ->
  JsNumber.isInteger (PORT env) = false ->
  (exists message, start h = inl (DataDirFailed message))
  \/ start h = inl (ListenFailed "ERR_SOCKET_BAD_PORT").
Proof.
  intros Henv Hint. unfold start. rewrite Henv.
  assert (Hl : listen h (PORT env) (HOST env) = inl (ListenFailed "ERR_SOCKET_BAD_PORT")).
  { unfold listen. unfold JsNumber.isInteger in Hint.
    by destruct (JsNumber.toInteger (PORT env)). }
  destruct (existsSync h (DATA_DIR env)).
  - right. by rewrite Hl.
  - destruct (mkdirSync h (DATA_DIR env)) as [message|].
    + left. by eexists.
    + right. by rewrite Hl.
Qed.

Lemma readEnv_fractional :
  readEnv {[ "PORT" := "80.5" ]} "/srv"
  = inr {| HOST := "0.0.0.0"; PORT := S754_finite false 5664683906301952 (-46);
           DATA_DIR := "/srv/data"; USERNAME := "admin"; PASSWORD := "admin";
           REALM := "Super Productivity Sync" |}.
Proof. by vm_compute. Qed.

(** PORT=80.5 on a host where everything else would work. *)
Lemma fractional_port_never_listens_witness :
  let h := {| penv := {[ "PORT" := "80.5" ]}; cwd := "/srv";
              existsSync := fun _ => true; mkdirSync := fun _ => None;
              bind := fun _ _ => None |} in
  (exists message, start h = inl (DataDirFailed message))
  \/ start h = inl (ListenFailed "ERR_SOCKET_BAD_PORT").
Proof.
  exact (fractional_port_never_listens
           {| penv := {[ "PORT" := "80.5" ]}; cwd := "/srv";
              existsSync := fun _ => true; mkdirSync := fun _ => None;
              bind := fun _ _ => None |} _ readEnv_fractional eq_refl).
Defined.

Lemma listen_error h port host e :
  listen h port host = inl e -> exists message, e = ListenFailed message.
Proof.
  unfold listen. destruct (JsNumber.toInteger port) as [p|]; [|intros [= <-]; by eexists].
  destruct ((0 <=? p) && (p <=? 65535)); [|intros [= <-]; by eexists].
  destruct (bind h p host); [intros [= <-]; by eexists|done].
Qed.

(** X13: [start] fails over the data directory exactly when the
    configuration is valid, the directory does not exist and creating it
    throws; the failure names the directory and carries the message of the
    error thrown. An existing directory is never created again. *)
Theorem data_dir_failure (h : Host) (message : string) :
  start h = inl (DataDirFailed message)
  <-> exists env cause,
        readEnv (penv h) (cwd h) = inr env
        /\ existsSync h (DATA_DIR env) = false
        /\ mkdirSync h (DATA_DIR env) = Some cause
        /\ message
           = "Unable to create DATA_DIR " +:+ JsString.dquote +:+ DATA_DIR env
             +:+ JsString.dquote +:+ ". Set DATA_DIR to a writable folder. "
             +:+ "Original error: " +:+ cause.
Proof.
  unfold start. split.
  - destruct (readEnv (penv h) (cwd h)) as [e|env]; [done|].
    destruct (existsSync h (DATA_DIR env)) eqn:Hex.
    + destruct (listen h (PORT env) (HOST env)) as [e|] eqn:Hl; [|done].
      apply listen_error in Hl as [m ->]. done.
    + destruct (mkdirSync h (DATA_DIR env)) as [cause|] eqn:Hmk.
      * intros [= <-]. by exists env, cause.
      * destruct (listen h (PORT env) (HOST env)) as [e|] eqn:Hl; [|done].
        apply listen_error in Hl as [m ->]. done.
  - intros (env & cause & Henv & Hex & Hmk & ->).
    by rewrite Henv, Hex, Hmk.
Qed.

Lemma envTrim_other penv name value :
  name <> "PASSWORD" ->
  envTrim (<["PASSWORD" := value]> penv) name = envTrim penv name.
Proof. intros Hn. unfold envTrim. by rewrite lookup_insert_ne. Qed.

Lemma envTrim_password penv value :
  envTrim (<["PASSWORD" := value]> penv) "PASSWORD" = Some (JsString.trim value).
Proof. unfold envTrim. by rewrite lookup_insert_eq. Qed.

(** [readEnv] after PASSWORD is set anew: the same failure, or the same
    configuration with another password. *)
Lemma readEnv_withPassword penv cwd value :
  readEnv (<["PASSWORD" := value]> penv) cwd
  = match readEnv penv cwd with
    | inl e => inl e
    | inr env =>
        inr {| HOST := HOST env; PORT := PORT env; DATA_DIR := DATA_DIR env;
               USERNAME := USERNAME env;
               PASSWORD := orElse (Some (JsString.trim value)) "admin";
               REALM := REALM env |}
    end.
Proof.
  unfold readEnv.
  rewrite (envTrim_other penv "HOST"), (envTrim_other penv "PORT"),
    (envTrim_other penv "DATA_DIR"), (envTrim_other penv "USERNAME"),
    (envTrim_other penv "REALM"), envTrim_password by done.
  rewrite (orElse_truthy (envTrim penv "PASSWORD") "admin" eq_refl).
  rewrite (orElse_truthy (Some (JsString.trim value)) "admin" eq_refl).
  rewrite (orElse_truthy (envTrim penv "USERNAME") "admin" eq_refl).
  by destruct (_ || _).
Qed.

(** X14: the password plays no part in what [start] does beyond the
    warning: with PASSWORD set to any other value, [start] fails in the same
    way or prints the same lines, warnings aside. The summary line is made
    of the host, the port, the data directory and the user name. *)
Theorem start_ignores_password (h : Host) (value : string) :
  withoutWarnings (start (withPassword value h)) = withoutWarnings (start h).
Proof.
  unfold start, withPassword. cbn [penv cwd existsSync mkdirSync].
  rewrite readEnv_withPassword.
  destruct (readEnv (penv h) (cwd h)) as [e|env]; [done|].
  cbn [DATA_DIR PORT HOST].
  destruct (if existsSync h (DATA_DIR env) then None else mkdirSync h (DATA_DIR env));
    [done|].
  unfold listen. cbn [bind].
  destruct (JsNumber.toInteger (PORT env)) as [p|]; [|done].
  destruct ((0 <=? p) && (p <=? 65535)); [|done].
  destruct (bind h p (HOST env)); [done|].
  unfold withoutWarnings. f_equal.
  rewrite !List.filter_app.
  assert (Hw : forall env', List.filter (fun line => negb (isWarning line))
                 (if usesWeakPassword env' then [console_warn weakPasswordWarning] else [])
               = []) by (intros env'; by destruct (usesWeakPassword env')).
  by rewrite !Hw.
Qed.
